(** * zap: ranking validation, move replay and subtask creation

    A shallow embedding of the Go packages [zap/gemini] and [zap/tasks]
    (the prioritizer and the subtask materializer) together with the
    properties their specification states about them.

    Remote collaborators (the task store and the text-generation service)
    are a record of state-passing operations; the workflow functions are
    written once against that record, in a small state-and-error monad that
    also keeps the trace of the remote calls issued. *)

From Stdlib Require Import List String Ascii Bool Arith NArith ZArith Lia.
From Stdlib Require Import Permutation Sorted DecimalString DecimalN.
From Stdlib Require Import Floats.SpecFloat.
Import ListNotations.
Local Open Scope list_scope.
Local Open Scope string_scope.

Set Implicit Arguments.

(* ================================================================== *)
(** ** Go strings and formatting *)

Module GoString.

(** [len(s)]: the number of bytes. *)
Definition len (s : string) : nat := String.length s.

(** [a < b] on Go strings: bytewise lexicographic order. *)
Definition lt (a b : string) : bool := String.ltb a b.

(** [strings.TrimPrefix]. *)
Definition TrimPrefix (s p : string) : string :=
  if String.prefix p s
  then String.substring (len p) (len s - len p) s
  else s.

Fixpoint rev (s : string) : string :=
  match s with
  | EmptyString => EmptyString
  | String c s' => rev s' ++ String c EmptyString
  end.

(** [strings.TrimSuffix]. *)
Definition TrimSuffix (s p : string) : string :=
  if String.prefix (rev p) (rev s)
  then String.substring 0 (len s - len p) s
  else s.

(** [%d] of a non-negative integer: its decimal digits, no padding. *)
Definition itoa (n : N) : string :=
  NilEmpty.string_of_uint (N.to_uint n).

Fixpoint zeros (k : nat) : string :=
  match k with
  | O => EmptyString
  | S k' => String "0" (zeros k')
  end.

(** [fmt.Sprintf("%05d", n)] for [n >= 0]: the decimal digits of [n],
    left-padded with zeros up to a width of 5.  The width is a minimum:
    a number of six digits or more is printed in full. *)
Definition Sprintf_05d (n : N) : string :=
  let d := itoa n in zeros (5 - len d) ++ d.

(** The number a string of decimal digits denotes (Horner's rule);
    a byte that is not a digit counts as its offset from ["0"]. *)
Definition digit_value (c : ascii) : N := N_of_ascii c - 48.

Definition is_digit (c : ascii) : bool :=
  (48 <=? N_of_ascii c)%N && (N_of_ascii c <=? 57)%N.

Fixpoint decimal_acc (acc : N) (s : string) : N :=
  match s with
  | EmptyString => acc
  | String c s' => decimal_acc (10 * acc + digit_value c) s'
  end.

Definition decimal_value (s : string) : N := decimal_acc 0 s.

Fixpoint all_digits (s : string) : bool :=
  match s with
  | EmptyString => true
  | String c s' => is_digit c && all_digits s'
  end.

End GoString.

(* ================================================================== *)
(** ** float64 *)

(** IEEE 754 binary64 values, as [spec_float] with [prec = 53] and
    [emax = 1024]; comparisons are [SFltb] and [SFleb], under which a NaN
    is neither below nor above anything. *)
Module Float64.

Definition t := spec_float.

Definition of_Z (z : Z) : t := binary_normalize 53 1024 z 0 false.

Definition zero : t := Eval cbv in of_Z 0.
Definition fifty : t := Eval cbv in of_Z 50.
Definition hundred : t := Eval cbv in of_Z 100.

Definition ltb (x y : t) : bool := SFltb x y.
Definition leb (x y : t) : bool := SFleb x y.

Definition is_nan (x : t) : bool :=
  match x with S754_nan => true | _ => false end.

(** [0 <= x <= 100]. *)
Definition in_0_100 (x : t) : bool := leb zero x && leb x hundred.

End Float64.

(* ================================================================== *)
(** ** Data model *)

(** [tasksapi.Task] and [tasksapi.TaskList], restricted to the fields the
    program reads or writes.  An empty [Parent] means a top-level task,
    an empty [Due] means no due date. *)
Record Task := mkTask {
  Id : string;
  Title : string;
  Due : string;
  Notes : string;
  Status : string;
  Parent : string;
  Position : string
}.

Record TaskList := mkTaskList {
  TaskList_Id : string;
  TaskList_Title : string
}.

(** [gemini.TaskPriority]. *)
Record TaskPriority := mkTaskPriority {
  TaskID : string;
  Priority : Float64.t;
  Explanation : string;
  NewPosition : string
}.

(** [gemini.SubtaskSuggestion]. *)
Record SubtaskSuggestion := mkSubtaskSuggestion {
  ParentTaskID : string;
  Subtasks : list string;
  Rationale : string
}.

(** The two requests sent to the text-generation service.  Each prompt is
    a fixed template around the JSON rendering of the submitted batch, so
    it is determined by the batch. *)
Inductive Prompt :=
| RankingPrompt (tasks : list Task)
| SubtaskPrompt (tasks : list Task).

(* ================================================================== *)
(** ** The Go library routines the program calls *)

(** What [sort.Slice] asks of its [less] argument. *)
Record strict_weak_order (A : Type) (less : A -> A -> bool) : Prop := {
  swo_irrefl : forall a, less a a = false;
  swo_trans : forall a b c,
      less a b = true -> less b c = true -> less a c = true;
  swo_incomparable : forall a b c,
      less a b = false -> less b c = false -> less a c = false
}.

(** [sorted_by less l]: no element of [l] is [less] than an earlier one. *)
Definition sorted_by (A : Type) (less : A -> A -> bool) (l : list A) : Prop :=
  StronglySorted (fun a b => less b a = false) l.

(** The library routines: [strings.TrimSpace], [strings.ToLower],
    [json.Unmarshal] at the two slice types the program decodes into
    ([inl] is the decode error's text), and [sort.Slice]. *)
Record GoRuntime := {
  TrimSpace : string -> string;
  ToLower : string -> string;
  Unmarshal_TaskPriority : string -> string + list TaskPriority;
  Unmarshal_SubtaskSuggestion : string -> string + list SubtaskSuggestion;
  sort_Slice : forall A : Type, (A -> A -> bool) -> list A -> list A
}.

(** What is relied on about them.
    - A JSON number never decodes to a NaN: JSON has no such literal, and
      a number out of the float64 range is a decode error.
    - [sort.Slice] rearranges the slice into an order sorted by [less];
      the order of elements that compare equal is not specified. *)
Record GoRuntimeLaws (G : GoRuntime) : Prop := {
  Unmarshal_number : forall s ps,
      Unmarshal_TaskPriority G s = inr ps ->
      Forall (fun p => Float64.is_nan (Priority p) = false) ps;
  sort_Slice_perm : forall (A : Type) (less : A -> A -> bool) l,
      Permutation l (sort_Slice G less l);
  sort_Slice_sorted : forall (A : Type) (less : A -> A -> bool) l,
      strict_weak_order less -> sorted_by less (sort_Slice G less l)
}.

(* ================================================================== *)
(** ** Remote collaborators *)

(** The remote operations, over a world [W] they may read and change.
    Each returns the new world and either the error's text or the value.
    [Tasks_Move] takes the [Previous] parameter when the call sets it;
    [Tasks_Insert] takes the task body and the [Parent] parameter. *)
Record Backend (W : Type) := {
  Tasklists_List : W -> W * (string + list TaskList);
  Tasks_List : string -> W -> W * (string + list Task);
  Tasks_Get : string -> string -> W -> W * (string + Task);
  Tasks_Move : string -> string -> option string -> W -> W * (string + Task);
  Tasks_Insert : string -> Task -> string -> W -> W * (string + Task);
  GenerateContent : Prompt -> W -> W * (string + list (list string))
}.

(** What the program does that can be observed from outside.  A fetch of
    a single task is recorded with what the store answered. *)
Inductive Event :=
| EvTasklistsList
| EvTasksList (tasklist : string)
| EvTasksGet (tasklist task : string) (result : string + Task)
| EvTasksMove (tasklist task : string) (previous : option string)
| EvTasksInsert (tasklist : string) (body : Task) (parent : string)
| EvGenerate (p : Prompt)
| EvPrint (s : string)
| EvSleep (milliseconds : nat).

(* ================================================================== *)
(** ** The state-and-error monad of the workflow *)

Section Monad.
Variable W : Type.

Record State := mkState { world : W; trace : list Event }.

(** A computation returns the new state and an error text or a value. *)
Definition M (A : Type) : Type := State -> State * (string + A).

Definition ret (A : Type) (a : A) : M A := fun s => (s, inr a).

Definition fail (A : Type) (e : string) : M A := fun s => (s, inl e).

Definition bind (A B : Type) (m : M A) (k : A -> M B) : M B :=
  fun s =>
    match m s with
    | (s', inl e) => (s', inl e)
    | (s', inr a) => k a s'
    end.

(** [fmt.Errorf] around a failed call: the error text is rewritten. *)
Definition wrapErr (A : Type) (f : string -> string) (m : M A) : M A :=
  fun s =>
    match m s with
    | (s', inl e) => (s', inl (f e))
    | (s', inr a) => (s', inr a)
    end.

(** One remote call: performed and recorded in the trace. *)
Definition remote (A : Type) (ev : string + A -> Event)
    (op : W -> W * (string + A)) : M A :=
  fun s =>
    let (w', r) := op (world s) in
    ({| world := w'; trace := (trace s ++ [ev r])%list |}, r).

(** [fmt.Printf]. *)
Definition Printf (msg : string) : M unit :=
  fun s =>
    ({| world := world s; trace := (trace s ++ [EvPrint msg])%list |},
     inr tt).

End Monad.

Arguments ret {W A} a.
Arguments fail {W A} e.
Arguments bind {W A B} m k.
Arguments wrapErr {W A} f m.
Arguments remote {W A} ev op.
Arguments Printf {W} msg.

Notation "x <- m ;; k" := (bind m (fun x => k))
  (at level 61, m at next level, right associativity).
Notation "m ;;; k" := (bind m (fun _ => k))
  (at level 61, right associativity).

Definition nl : string := String (ascii_of_nat 10) EmptyString.

(** [%d] of a length. *)
Definition fmt_d (n : nat) : string := GoString.itoa (N.of_nat n).

(* ================================================================== *)
(** ** Package gemini and package tasks *)

Section Program.
Variable W : Type.
Variable B : Backend W.
Variable G : GoRuntime.

Local Abbreviation M := (M W).

(** *** gemini: reading the response *)

(** The clean-up both response paths apply before decoding. *)
Definition cleanResponse (responseText : string) : string :=
  let cleanJSON := TrimSpace G responseText in
  let cleanJSON := GoString.TrimPrefix cleanJSON "```json" in
  let cleanJSON := GoString.TrimPrefix cleanJSON "```" in
  let cleanJSON := GoString.TrimSuffix cleanJSON "```" in
  TrimSpace G cleanJSON.

(** The call to the service and the choice of
    [resp.Candidates[0].Content.Parts[0]].  The service is a text
    endpoint: a candidate is the list of its text parts, on which the
    assertion [.(genai.Text)] is the identity.  A candidate without
    content, or whose first part is not text, makes the Go code panic;
    such an answer is not a value of the response type here, and nothing
    below is said of it. *)
Definition generateText (p : Prompt) : M string :=
  resp <- wrapErr (fun e => "failed to generate content: " ++ e)
            (remote (fun _ => EvGenerate p) (GenerateContent B p)) ;;
  match resp with
  | [] => fail "no response from Gemini"
  | [] :: _ => fail "no response from Gemini"
  | (responseText :: _) :: _ => ret responseText
  end.

(** *** gemini: AnalyzeAndPrioritizeTasks

    The batch is rendered as a JSON array of objects with string fields,
    which cannot fail, and put into the ranking prompt. *)

(** The body of the repair loop at index [i]. *)
Definition repairAt (i : nat) (p : TaskPriority) : TaskPriority :=
  let p :=
    if Float64.ltb (Priority p) Float64.zero
       || Float64.ltb Float64.hundred (Priority p)
    then {| TaskID := TaskID p; Priority := Float64.fifty;
            Explanation := Explanation p; NewPosition := NewPosition p |}
    else p in
  if negb (GoString.len (NewPosition p) =? 5)%nat
  then {| TaskID := TaskID p; Priority := Priority p;
          Explanation := Explanation p;
          NewPosition := GoString.Sprintf_05d (N.of_nat (i + 1)) |}
  else p.

(** [for i := range priorities { ... }], from index [i] on. *)
Fixpoint repairFrom (i : nat) (priorities : list TaskPriority)
  : list TaskPriority :=
  match priorities with
  | [] => []
  | p :: rest => repairAt i p :: repairFrom (S i) rest
  end.

(** The count check and the repair loop, on the decoded slice. *)
Definition validatePriorities (tasks : list Task)
    (priorities : list TaskPriority) : string + list TaskPriority :=
  if negb (List.length priorities =? List.length tasks)%nat
  then inl ("received incorrect number of priorities: got "
            ++ fmt_d (List.length priorities) ++ ", want "
            ++ fmt_d (List.length tasks))
  else inr (repairFrom 0 priorities).

Definition liftResult (A : Type) (r : string + A) : M A :=
  match r with
  | inl e => fail e
  | inr a => ret a
  end.

Definition AnalyzeAndPrioritizeTasks (tasks : list Task)
  : M (list TaskPriority) :=
  responseText <- generateText (RankingPrompt tasks) ;;
  let cleanJSON := cleanResponse responseText in
  match Unmarshal_TaskPriority G cleanJSON with
  | inl err =>
      fail ("failed to parse Gemini response: " ++ err ++ nl
            ++ "Response was: " ++ cleanJSON)
  | inr priorities => liftResult (validatePriorities tasks priorities)
  end.

(** *** gemini: SuggestSubtasks *)

(** [task.Parent == ""]. *)
Definition isTopLevel (t : Task) : bool := (Parent t =? "").

Definition validateSuggestions (tasks : list Task)
    (suggestions : list SubtaskSuggestion)
  : string + list SubtaskSuggestion :=
  let topLevelTasks := filter isTopLevel tasks in
  if negb (List.length suggestions =? List.length topLevelTasks)%nat
  then inl ("received incorrect number of suggestions: got "
            ++ fmt_d (List.length suggestions) ++ ", want "
            ++ fmt_d (List.length topLevelTasks))
  else inr suggestions.

Definition SuggestSubtasks (tasks : list Task)
  : M (list SubtaskSuggestion) :=
  responseText <- generateText (SubtaskPrompt tasks) ;;
  let cleanJSON := cleanResponse responseText in
  match Unmarshal_SubtaskSuggestion G cleanJSON with
  | inl err =>
      fail ("failed to parse Gemini response: " ++ err ++ nl
            ++ "Response was: " ++ cleanJSON)
  | inr suggestions => liftResult (validateSuggestions tasks suggestions)
  end.

(** *** gemini: CreateSubtasks *)

(** The task body built for one proposed title. *)
Definition newSubtask (suggestion : SubtaskSuggestion) (parentTask : Task)
    (subtaskTitle : string) : Task :=
  let subtask :=
    {| Id := ""; Title := subtaskTitle; Due := "";
       Notes := "Auto-generated subtask" ++ nl ++ "Rationale: "
                ++ Rationale suggestion;
       Status := ""; Parent := ParentTaskID suggestion; Position := "" |} in
  if negb (Due parentTask =? "")
  then {| Id := Id subtask; Title := Title subtask; Due := Due parentTask;
          Notes := Notes subtask; Status := Status subtask;
          Parent := Parent subtask; Position := Position subtask |}
  else subtask.

(** The inner loop over [suggestion.Subtasks]. *)
Fixpoint insertSubtasks (taskListId : string)
    (suggestion : SubtaskSuggestion) (parentTask : Task)
    (titles : list string) : M unit :=
  match titles with
  | [] => ret tt
  | subtaskTitle :: rest =>
      let subtask := newSubtask suggestion parentTask subtaskTitle in
      _ <- wrapErr
             (fun e => "failed to create subtask '" ++ subtaskTitle
                       ++ "' for parent task " ++ ParentTaskID suggestion
                       ++ ": " ++ e)
             (remote
                (fun _ =>
                   EvTasksInsert taskListId subtask (ParentTaskID suggestion))
                (Tasks_Insert B taskListId subtask
                   (ParentTaskID suggestion))) ;;
      insertSubtasks taskListId suggestion parentTask rest
  end.

Fixpoint CreateSubtasks (taskListId : string)
    (suggestions : list SubtaskSuggestion) : M unit :=
  match suggestions with
  | [] => ret tt
  | suggestion :: rest =>
      parentTask <-
        wrapErr
          (fun e => "failed to get parent task " ++ ParentTaskID suggestion
                    ++ ": " ++ e)
          (remote (EvTasksGet taskListId (ParentTaskID suggestion))
             (Tasks_Get B taskListId (ParentTaskID suggestion))) ;;
      insertSubtasks taskListId suggestion parentTask (Subtasks suggestion) ;;;
      CreateSubtasks taskListId rest
  end.

Definition AnalyzeAndCreateSubtasks (taskListId : string)
    (tasks : list Task) : M unit :=
  suggestions <- wrapErr (fun e => "failed to suggest subtasks: " ++ e)
                   (SuggestSubtasks tasks) ;;
  wrapErr (fun e => "failed to create subtasks: " ++ e)
    (CreateSubtasks taskListId suggestions).

(** *** tasks: the service wrapper *)

Definition ListTaskLists : M (list TaskList) :=
  wrapErr (fun e => "unable to retrieve task lists: " ++ e)
    (remote (fun _ => EvTasklistsList) (Tasklists_List B)).

Definition ListTasks (taskListID : string) : M (list Task) :=
  wrapErr (fun e => "unable to retrieve tasks: " ++ e)
    (remote (fun _ => EvTasksList taskListID)
       (Tasks_List B taskListID)).

Definition MoveTask (taskListID taskID previousTaskID : string) : M Task :=
  let previous :=
    if negb (previousTaskID =? "")
    then Some previousTaskID else None in
  wrapErr (fun e => "unable to move task: " ++ e)
    (remote (fun _ => EvTasksMove taskListID taskID previous)
       (Tasks_Move B taskListID taskID previous)).

(** Modelled from the spec: [GetTaskListByTitle], which the prioritizer and
    the main program call but whose definition is not part of the sources
    at hand.  The title is resolved against the store's list catalog by
    exact, case-sensitive comparison; a title with no match is an error. *)
Definition GetTaskListByTitle (title : string) : M TaskList :=
  taskLists <- ListTaskLists ;;
  match find (fun l => (TaskList_Title l =? title)) taskLists with
  | Some l => ret l
  | None => fail ("task list not found: " ++ title)
  end.

(** *** tasks: the prioritizer *)

(** [priorities[i].NewPosition < priorities[j].NewPosition]. *)
Definition lessByPosition (a b : TaskPriority) : bool :=
  GoString.lt (NewPosition a) (NewPosition b).

(** The replay loop, [previousTaskID] being its accumulator. *)
Fixpoint replayMoves (taskListId : string) (priorities : list TaskPriority)
    (previousTaskID : string) : M unit :=
  match priorities with
  | [] => ret tt
  | priority :: rest =>
      _ <- wrapErr
             (fun e => "error moving task " ++ TaskID priority ++ ": " ++ e)
             (MoveTask taskListId (TaskID priority) previousTaskID) ;;
      replayMoves taskListId rest (TaskID priority)
  end.

(** The body of the loop over [targetLists] for one title; [inr true]
    when the list was reordered, [inr false] when it was skipped for
    having no top-level task. *)
Definition reorderList (listTitle : string) : M bool :=
  taskList <- wrapErr
                (fun e => "error finding task list " ++ listTitle
                          ++ ": " ++ e)
                (GetTaskListByTitle listTitle) ;;
  tasks <- wrapErr
             (fun e => "error fetching tasks for list " ++ listTitle
                       ++ ": " ++ e)
             (ListTasks (TaskList_Id taskList)) ;;
  let topLevelTasks := filter isTopLevel tasks in
  if (List.length topLevelTasks =? 0)%nat
  then
    Printf ("No top-level tasks found in list: " ++ listTitle ++ nl) ;;;
    ret false
  else
    priorities <- wrapErr
                    (fun e => "error analyzing tasks for list " ++ listTitle
                              ++ ": " ++ e)
                    (AnalyzeAndPrioritizeTasks topLevelTasks) ;;
    let priorities := sort_Slice G lessByPosition priorities in
    replayMoves (TaskList_Id taskList) priorities "" ;;;
    Printf ("Successfully prioritized " ++ fmt_d (List.length priorities)
            ++ " tasks in list: " ++ listTitle ++ nl) ;;;
    ret true.

Fixpoint ReorderTasksByPriority (targetLists : list string) : M unit :=
  match targetLists with
  | [] => ret tt
  | listTitle :: rest =>
      reorderList listTitle ;;;
      ReorderTasksByPriority rest
  end.

(** [getPriorityForTask]: the priority of the first record for [taskID],
    0 when there is none. *)
Fixpoint getPriorityForTask (taskID : string)
    (priorities : list TaskPriority) : Float64.t :=
  match priorities with
  | [] => Float64.zero
  | p :: rest =>
      if (TaskID p =? taskID) then Priority p
      else getPriorityForTask taskID rest
  end.

End Program.

Arguments getPriorityForTask taskID priorities : clear implicits.

(* ================================================================== *)
(** ** The earlier variant of the prioritizer

    The same file exists in an earlier form, which selects the lists with
    [shouldProcessList], ranks by priority score and reports move failures
    by title.  Its helpers, the grouping of the tasks by list and the
    per-list part of its move loop follow. *)

Module VariantB.

Definition shouldProcessList (G : GoRuntime) (listTitle : string)
    (targetLists : list string) : bool :=
  let listTitle := ToLower G listTitle in
  existsb (fun target => ToLower G target =? listTitle) targetLists.

(** [taskWithPriority]. *)
Record taskWithPriority := mkTaskWithPriority {
  task : Task;
  priority : Float64.t
}.

(** [tasksWithPriority[i].priority > tasksWithPriority[j].priority]. *)
Definition lessByPriority (a b : taskWithPriority) : bool :=
  Float64.ltb (priority b) (priority a).

(** [tasksByList[listID]] after the grouping loop: the tasks of [allTasks]
    that [taskToListMap] sends to [listID], in their order, each with the
    priority [getPriorityForTask] finds for it.  The map is read as a
    function, a key it does not hold reading as the empty string. *)
Definition tasksByList (taskToListMap : string -> string)
    (allTasks : list Task) (priorities : list TaskPriority)
    (listID : string) : list taskWithPriority :=
  map (fun t => {| task := t;
                   priority := getPriorityForTask (Id t) priorities |})
    (filter (fun t => taskToListMap (Id t) =? listID) allTasks).

(** The slice of one list after [sort.Slice], highest priority first. *)
Definition byPriority (G : GoRuntime)
    (tasksWithPriority : list taskWithPriority) : list taskWithPriority :=
  sort_Slice G lessByPriority tasksWithPriority.

Section Moves.
Variable W : Type.
Variable B : Backend W.

(** [for i := 1; i < len(tasksWithPriority); i++ { ... }], the list being
    walked with the previous element at hand. *)
Fixpoint moveRemaining (listID listTitle : string) (previousTask : Task)
    (rest : list taskWithPriority) : M W unit :=
  match rest with
  | [] => ret tt
  | cur :: rest' =>
      let currentTask := task cur in
      _ <- wrapErr
             (fun e => "failed to move task " ++ Title currentTask
                       ++ " after " ++ Title previousTask ++ " in list "
                       ++ listTitle ++ ": " ++ e)
             (MoveTask B listID (Id currentTask) (Id previousTask)) ;;
      remote (fun _ => EvSleep 100) (fun w => (w, inr tt)) ;;;
      moveRemaining listID listTitle currentTask rest'
  end.

(** The body of [for listID, tasksWithPriority := range tasksByList] after
    the sort; every list in that map holds at least one task. *)
Definition moveList (listID listTitle : string)
    (tasksWithPriority : list taskWithPriority) : M W unit :=
  match tasksWithPriority with
  | [] => ret tt
  | first :: rest =>
      let highestPriorityTask := task first in
      _ <- wrapErr
             (fun e => "failed to move task " ++ Title highestPriorityTask
                       ++ " to top in list " ++ listTitle ++ ": " ++ e)
             (MoveTask B listID (Id highestPriorityTask) "") ;;
      moveRemaining listID listTitle highestPriorityTask rest
  end.

End Moves.
End VariantB.

(* ================================================================== *)
(** ** A runtime: insertion sort and a table-driven decoder *)

Module Runtime.

Section InsertionSort.
Variable A : Type.
Variable less : A -> A -> bool.

(** The inner loop of [insertionSortLessFunc], the sort [sort.Slice] runs
    on a short slice: [x] sinks below the elements it is [less] than.  The
    sorted part is held last element first. *)
Fixpoint sink (x : A) (sortedRev : list A) : list A :=
  match sortedRev with
  | [] => [x]
  | y :: rest => if less x y then y :: sink x rest else x :: sortedRev
  end.

Definition insertionSort (l : list A) : list A :=
  rev (fold_left (fun sortedRev x => sink x sortedRev) l []).

(** The sorted part, last element first: nothing is [less] than what
    comes after it in that list. *)
Definition descending (l : list A) : Prop :=
  StronglySorted (fun a b => less a b = false) l.

End InsertionSort.

Definition isSpace (c : ascii) : bool :=
  match N_of_ascii c with
  | 9%N | 10%N | 11%N | 12%N | 13%N | 32%N => true
  | _ => false
  end.

Fixpoint trimLeft (s : string) : string :=
  match s with
  | EmptyString => EmptyString
  | String c s' => if isSpace c then trimLeft s' else s
  end.

(** [strings.TrimSpace] for text whose white space is ASCII. *)
Definition trimSpace (s : string) : string :=
  GoString.rev (trimLeft (GoString.rev (trimLeft s))).

(** [strings.ToLower] for text whose letters are ASCII. *)
Definition toLowerByte (c : ascii) : ascii :=
  let n := N_of_ascii c in
  if (65 <=? n)%N && (n <=? 90)%N then ascii_of_N (n + 32) else c.

Fixpoint toLower (s : string) : string :=
  match s with
  | EmptyString => EmptyString
  | String c s' => String (toLowerByte c) (toLower s')
  end.

Fixpoint lookup (A : Type) (key : string) (table : list (string * A))
  : option A :=
  match table with
  | [] => None
  | (k, v) :: rest => if k =? key then Some v else lookup key rest
  end.

(** A decoder that knows the documents of a table. *)
Definition decodePriorities (table : list (string * list TaskPriority))
    (s : string) : string + list TaskPriority :=
  match lookup s table with
  | Some ps =>
      if forallb (fun p => negb (Float64.is_nan (Priority p))) ps
      then inr ps
      else inl "json: cannot unmarshal number into Go struct field"
  | None => inl "invalid character looking for beginning of value"
  end.

Definition decodeSuggestions (table : list (string * list SubtaskSuggestion))
    (s : string) : string + list SubtaskSuggestion :=
  match lookup s table with
  | Some ss => inr ss
  | None => inl "invalid character looking for beginning of value"
  end.

End Runtime.

(** The runtime: ASCII [TrimSpace] and [ToLower], the table-driven
    decoders and insertion sort. *)
Definition tableRuntime (priorityDocs : list (string * list TaskPriority))
    (suggestionDocs : list (string * list SubtaskSuggestion)) : GoRuntime := {|
  TrimSpace := Runtime.trimSpace;
  ToLower := Runtime.toLower;
  Unmarshal_TaskPriority := Runtime.decodePriorities priorityDocs;
  Unmarshal_SubtaskSuggestion := Runtime.decodeSuggestions suggestionDocs;
  sort_Slice := Runtime.insertionSort
|}.

(* ================================================================== *)
(** ** A task store

    The store keeps, for every task list, its tasks in their order.  A
    relative move takes the task out and puts it back right after the named
    predecessor, or in front when none is named; this is the only way the
    order changes.  The service's answers are a queue consumed one request
    at a time. *)

Module Store.

Record t := mk {
  lists : list (TaskList * list Task);
  replies : list (string + list (list string));
  fresh : nat
}.

Definition hasId (id : string) (x : Task) : bool := Id x =? id.

Fixpoint tasksOf (ls : list (TaskList * list Task)) (listID : string)
  : option (list Task) :=
  match ls with
  | [] => None
  | (l, ts) :: rest =>
      if TaskList_Id l =? listID then Some ts else tasksOf rest listID
  end.

Fixpoint setTasks (ls : list (TaskList * list Task)) (listID : string)
    (ts' : list Task) : list (TaskList * list Task) :=
  match ls with
  | [] => []
  | (l, ts) :: rest =>
      if TaskList_Id l =? listID then (l, ts') :: rest
      else (l, ts) :: setTasks rest listID ts'
  end.

(** The identifiers of a list's tasks, in store order. *)
Definition order (w : t) (listID : string) : list string :=
  match tasksOf (lists w) listID with
  | Some ts => map Id ts
  | None => []
  end.

Fixpoint placeAfter (previous : string) (x : Task) (ts : list Task)
  : list Task :=
  match ts with
  | [] => []
  | y :: rest =>
      if hasId previous y then y :: x :: rest
      else y :: placeAfter previous x rest
  end.

(** The relative move on one list's tasks. *)
Definition moveIn (ts : list Task) (taskID : string)
    (previous : option string) : string + (Task * list Task) :=
  match find (hasId taskID) ts with
  | None => inl "Task not found"
  | Some x =>
      let others := filter (fun y => negb (hasId taskID y)) ts in
      match previous with
      | None => inr (x, x :: others)
      | Some p =>
          if existsb (hasId p) others
          then inr (x, placeAfter p x others)
          else inl "Previous task not found"
      end
  end.

Definition doListTasklists (w : t) : t * (string + list TaskList) :=
  (w, inr (map fst (lists w))).

Definition doListTasks (listID : string) (w : t)
  : t * (string + list Task) :=
  match tasksOf (lists w) listID with
  | Some ts => (w, inr ts)
  | None => (w, inl "Task list not found")
  end.

Definition doGet (listID taskID : string) (w : t) : t * (string + Task) :=
  match tasksOf (lists w) listID with
  | Some ts =>
      match find (hasId taskID) ts with
      | Some x => (w, inr x)
      | None => (w, inl "Task not found")
      end
  | None => (w, inl "Task list not found")
  end.

Definition doMove (listID taskID : string) (previous : option string)
    (w : t) : t * (string + Task) :=
  match tasksOf (lists w) listID with
  | Some ts =>
      match moveIn ts taskID previous with
      | inr (x, ts') =>
          ({| lists := setTasks (lists w) listID ts';
              replies := replies w; fresh := fresh w |}, inr x)
      | inl e => (w, inl e)
      end
  | None => (w, inl "Task list not found")
  end.

(** A created task gets a new identifier and the parent named by the call's
    [Parent] parameter, and is put first. *)
Definition doInsert (listID : string) (body : Task) (parent : string)
    (w : t) : t * (string + Task) :=
  match tasksOf (lists w) listID with
  | Some ts =>
      let x := {| Id := "new-" ++ fmt_d (fresh w); Title := Title body;
                  Due := Due body; Notes := Notes body;
                  Status := "needsAction"; Parent := parent;
                  Position := Position body |} in
      ({| lists := setTasks (lists w) listID (x :: ts);
          replies := replies w; fresh := S (fresh w) |}, inr x)
  | None => (w, inl "Task list not found")
  end.

Definition doGenerate (p : Prompt) (w : t)
  : t * (string + list (list string)) :=
  match replies w with
  | [] => (w, inl "deadline exceeded")
  | r :: rest =>
      ({| lists := lists w; replies := rest; fresh := fresh w |}, r)
  end.

Definition backend : Backend t := {|
  Tasklists_List := doListTasklists;
  Tasks_List := doListTasks;
  Tasks_Get := doGet;
  Tasks_Move := doMove;
  Tasks_Insert := doInsert;
  GenerateContent := doGenerate
|}.

(** The state a run starts from: the store and an empty trace. *)
Definition start (w : t) : State t := {| world := w; trace := [] |}.

End Store.

(* ================================================================== *)
(** ** What the specification talks about *)

(** A record is valid when its score is within [0,100] and its position is
    five bytes long. *)
Definition validRecord (p : TaskPriority) : Prop :=
  Float64.in_0_100 (Priority p) = true /\ GoString.len (NewPosition p) = 5.

(** The move calls that replay a ranking: the first with no predecessor,
    each later one after the task moved just before. *)
Fixpoint moveCallsFrom (listID : string) (previous : option string)
    (ids : list string) : list Event :=
  match ids with
  | [] => []
  | id :: rest =>
      EvTasksMove listID id previous :: moveCallsFrom listID (Some id) rest
  end.

Definition moveCalls (listID : string) (ids : list string) : list Event :=
  moveCallsFrom listID None ids.

(** The insert calls that materialize one suggestion under a parent with
    due date [due] ([""] for none): one per proposed title. *)
Definition insertCalls (taskListId : string) (s : SubtaskSuggestion)
    (due : string) : list Event :=
  map (fun title =>
         EvTasksInsert taskListId
           {| Id := ""; Title := title; Due := due;
              Notes := "Auto-generated subtask" ++ nl ++ "Rationale: "
                       ++ Rationale s;
              Status := ""; Parent := ParentTaskID s; Position := "" |}
           (ParentTaskID s))
      (Subtasks s).

(** The move events of a trace. *)
Definition isMove (ev : Event) : bool :=
  match ev with EvTasksMove _ _ _ => true | _ => false end.

Definition movedIds (tr : list Event) : list string :=
  flat_map (fun ev => match ev with
                      | EvTasksMove _ id _ => [id]
                      | _ => []
                      end) tr.

(** The [Previous] parameter MoveTask sets for a predecessor argument. *)
Definition previousOf (previousTaskID : string) : option string :=
  if negb (previousTaskID =? "") then Some previousTaskID else None.

(** The move calls the loop issues when none fails. *)
Fixpoint replayCalls (l prev : string) (rs : list TaskPriority)
  : list Event :=
  match rs with
  | [] => []
  | p :: rest =>
      EvTasksMove l (TaskID p) (previousOf prev)
      :: replayCalls l (TaskID p) rest
  end.

(** Lists of identifiers: membership, removal of an identifier, the
    identifiers outside a given list, insertion after an identifier. *)
Definition memId (i : string) (l : list string) : bool :=
  existsb (String.eqb i) l.

Definition withoutId (id : string) (l : list string) : list string :=
  filter (fun i => negb (i =? id)) l.

Definition outside (done l : list string) : list string :=
  filter (fun i => negb (memId i done)) l.

Fixpoint insertAfter (p x : string) (l : list string) : list string :=
  match l with
  | [] => []
  | y :: r => if y =? p then y :: x :: r else y :: insertAfter p x r
  end.

(** What a move that the store accepts does to the order of the list. *)
Definition movedOrder (ids : list string) (id : string)
    (previous : option string) : list string :=
  match previous with
  | None => id :: withoutId id ids
  | Some p => insertAfter p id (withoutId id ids)
  end.

(** A store that keeps the relative move of the glossary, [order] being
    the order of a list's tasks as the store holds it: the move of a task
    of the list to the front, or behind another task of the list, is
    accepted; and an accepted move takes the task out and puts it back
    right after the named predecessor, or in front when none is named. *)
Record RelativeMove (W : Type) (B : Backend W)
    (order : W -> string -> list string) : Prop := {
  move_accepted : forall l id previous w,
      In id (order w l) ->
      match previous with
      | None => True
      | Some p => In p (withoutId id (order w l))
      end ->
      exists x, snd (Tasks_Move B l id previous w) = inr x;
  move_order : forall l id previous w x,
      snd (Tasks_Move B l id previous w) = inr x ->
      order (fst (Tasks_Move B l id previous w)) l
      = movedOrder (order w l) id previous
}.

(** What materializing suggestion [s] under the fetched parent [p] looks
    like from outside: the fetch, then one insert per proposed title. *)
Definition materialized (taskListId : string) (s : SubtaskSuggestion)
    (p : Task) : list Event :=
  EvTasksGet taskListId (ParentTaskID s) (inr p)
  :: insertCalls taskListId s (Due p).

(** [a] occurs in [b]. *)
Definition occursIn (a b : string) : Prop := exists l r, b = l ++ a ++ r.

(** One insert call of a suggestion, for one of its titles. *)
Definition insertOf (taskListId : string) (s : SubtaskSuggestion)
    (due title : string) (ev : Event) : Prop :=
  exists body,
    ev = EvTasksInsert taskListId body (ParentTaskID s)
    /\ Title body = title
    /\ Parent body = ParentTaskID s
    /\ Due body = due
    /\ occursIn (Rationale s) (Notes body).

(** A position that the ranking prompt asks for: five decimal digits. *)
Definition paddedRank (p : TaskPriority) : Prop :=
  GoString.len (NewPosition p) = 5
  /\ GoString.all_digits (NewPosition p) = true.

(** Whether the [count] numbers from [n] on print in at most five
    digits. *)
Fixpoint narrowFrom (count : nat) (n : N) : bool :=
  match count with
  | O => true
  | S count' =>
      (GoString.len (GoString.itoa n) <=? 5)%nat
      && narrowFrom count' (N.succ n)
  end.

(* ================================================================== *)
(** ** A store with two lists, and some answers of the service *)

Module Demo.

Definition top (id title due : string) : Task :=
  {| Id := id; Title := title; Due := due; Notes := "";
     Status := "needsAction"; Parent := ""; Position := "" |}.

Definition child (id title parent : string) : Task :=
  {| Id := id; Title := title; Due := ""; Notes := "";
     Status := "needsAction"; Parent := parent; Position := "" |}.

Definition taskA : Task := top "A" "Write report" "2024-06-01T00:00:00Z".
Definition taskB : Task := top "B" "Book venue" "".
Definition taskC : Task := top "C" "[URGENT] Fix login" "".
Definition taskD : Task := top "D" "Review budget" "".
Definition taskE : Task := top "E" "Plan offsite" "".

Definition backlog : TaskList :=
  {| TaskList_Id := "L1"; TaskList_Title := "Backlog" |}.
Definition inProgress : TaskList :=
  {| TaskList_Id := "L2"; TaskList_Title := "In Progress" |}.

Definition record (id : string) (score : Z) (position : string)
  : TaskPriority :=
  {| TaskID := id; Priority := Float64.of_Z score;
     Explanation := "because"; NewPosition := position |}.

(** C first, then A, then B. *)
Definition rankCAB : list TaskPriority :=
  [record "A" 80 "00002"; record "B" 20 "00003"; record "C" 95 "00001"].

(** Scores 150 and -5, positions of 3 and 7 bytes. *)
Definition rankOff : list TaskPriority :=
  [record "A" 150 "001"; record "B" (-5) "0000002"; record "C" 95 "00003"].

(** The second record names a task that is in no list. *)
Definition rankGhost : list TaskPriority :=
  [record "C" 1 "00001"; record "X" 2 "00002"; record "B" 3 "00003"].

Definition rankDE : list TaskPriority :=
  [record "D" 10 "00002"; record "E" 90 "00001"].

Definition suggestion (parent : string) (titles : list string)
  : SubtaskSuggestion :=
  {| ParentTaskID := parent; Subtasks := titles;
     Rationale := "split by phase" |}.

Definition threeSuggestions : list SubtaskSuggestion :=
  [suggestion "A" ["Research"; "Design"]; suggestion "B" ["Call"];
   suggestion "A1" ["Draft"]].

Definition twoSuggestions : list SubtaskSuggestion :=
  [suggestion "A" ["Research"; "Design"]; suggestion "B" ["Call"]].

Definition G : GoRuntime :=
  tableRuntime
    [("rank-CAB", rankCAB); ("rank-off", rankOff);
     ("rank-ghost", rankGhost); ("rank-DE", rankDE)]
    [("suggest-3", threeSuggestions); ("suggest-2", twoSuggestions)].

(** The service answers each request with one candidate of one part. *)
Definition answers (texts : list string)
  : list (string + list (list string)) :=
  map (fun text => inr [[text]]) texts.

(** Both target lists exist. *)
Definition store (texts : list string) : Store.t :=
  {| Store.lists := [(backlog, [taskA; taskB; taskC]);
                     (inProgress, [taskD; taskE])];
     Store.replies := answers texts; Store.fresh := 0 |}.

(** There is no list titled Backlog. *)
Definition storeNoBacklog (texts : list string) : Store.t :=
  {| Store.lists := [(inProgress, [taskD; taskE])];
     Store.replies := answers texts; Store.fresh := 0 |}.

(** The same tasks, in a list with another title and identifier. *)
Definition storeRenamed (texts : list string) : Store.t :=
  {| Store.lists := [({| TaskList_Id := "L9"; TaskList_Title := "Someday" |},
                      [taskA; taskB; taskC])];
     Store.replies := answers texts; Store.fresh := 0 |}.

(** Five tasks, two of them top-level. *)
Definition fiveTasks : list Task :=
  [taskA; child "A1" "Outline" "A"; child "A2" "Figures" "A"; taskB;
   child "B1" "Shortlist" "B"].

(** A batch of [n] tasks and an answer of [n] records, none of which
    carries a position. *)
Definition numberedTask (k : nat) : Task :=
  top ("t" ++ fmt_d k) "task" "".

Definition numberedRecord (k : nat) : TaskPriority :=
  {| TaskID := "t" ++ fmt_d k; Priority := Float64.fifty;
     Explanation := "because"; NewPosition := "" |}.

Definition manyTasks (n : nat) : list Task := map numberedTask (seq 0 n).

Definition manyRecords (n : nat) : list TaskPriority :=
  map numberedRecord (seq 0 n).

Definition hundredThousand : nat := N.to_nat 100000.

Definition bigG : GoRuntime :=
  tableRuntime [("rank-all", manyRecords hundredThousand)] [].

Definition bigStore : Store.t :=
  {| Store.lists := []; Store.replies := answers ["rank-all"];
     Store.fresh := 0 |}.

End Demo.

(* ================================================================== *)
(** ** Package main: helpers of the main program *)

(** [contains], the exact membership test of the earlier main program. *)
Fixpoint contains (slice : list string) (item : string) : bool :=
  match slice with
  | [] => false
  | s :: rest => if s =? item then true else contains rest item
  end.

(** The counting loop of [main]: over [rest], a task with an empty parent
    adds one to [topLevelCount], and one to [hasSubtasksCount] when some
    task of the whole list [tasks] names it as parent. *)
Fixpoint countTasks (tasks rest : list Task)
    (topLevelCount hasSubtasksCount : nat) : nat * nat :=
  match rest with
  | [] => (topLevelCount, hasSubtasksCount)
  | task :: rest' =>
      if Parent task =? ""
      then countTasks tasks rest' (topLevelCount + 1)
             (if existsb (fun t => Parent t =? Id task) tasks
              then hasSubtasksCount + 1 else hasSubtasksCount)
      else countTasks tasks rest' topLevelCount hasSubtasksCount
  end.


(* ================================================================== *)
(** ** Package tasks: marking a task *)

(** The store's update of a task, by list and task identifier. *)
Record UpdateBackend (W : Type) := {
  Tasks_Update : string -> string -> Task -> W -> W * (string + Task)
}.

(** [task.Status = status]. *)
Definition withStatus (task : Task) (status : string) : Task :=
  {| Id := Id task; Title := Title task; Due := Due task;
     Notes := Notes task; Status := status; Parent := Parent task;
     Position := Position task |}.

(** [NewTask]. *)
Definition NewTask (title : string) : Task :=
  {| Id := ""; Title := title; Due := ""; Notes := "";
     Status := "needsAction"; Parent := ""; Position := "" |}.

Section Marking.
Variable W : Type.
Variable B : Backend W.
Variable U : UpdateBackend W.

Definition UpdateTask (taskListID taskID : string) (task : Task)
  : W -> W * (string + Task) :=
  fun w =>
    match Tasks_Update U taskListID taskID task w with
    | (w', inl e) => (w', inl ("unable to update task: " ++ e))
    | (w', inr updatedTask) => (w', inr updatedTask)
    end.

Definition MarkTaskComplete (taskListID taskID : string)
  : W -> W * (string + Task) :=
  fun w =>
    match Tasks_Get B taskListID taskID w with
    | (w', inl e) => (w', inl ("unable to get task: " ++ e))
    | (w', inr task) =>
        UpdateTask taskListID taskID (withStatus task "completed") w'
    end.

Definition MarkTaskIncomplete (taskListID taskID : string)
  : W -> W * (string + Task) :=
  fun w =>
    match Tasks_Get B taskListID taskID w with
    | (w', inl e) => (w', inl ("unable to get task: " ++ e))
    | (w', inr task) =>
        UpdateTask taskListID taskID (withStatus task "needsAction") w'
    end.

End Marking.

(** The store's update: the task with that identifier is replaced by the
    body, which must carry the same identifier. *)
Module StoreUpdate.

Fixpoint replaceTask (taskID : string) (body : Task) (ts : list Task)
  : list Task :=
  match ts with
  | [] => []
  | y :: rest =>
      if Store.hasId taskID y then body :: rest
      else y :: replaceTask taskID body rest
  end.

Definition doUpdate (listID taskID : string) (body : Task) (w : Store.t)
  : Store.t * (string + Task) :=
  match Store.tasksOf (Store.lists w) listID with
  | Some ts =>
      if negb (Id body =? taskID) then (w, inl "Invalid task ID")
      else if existsb (Store.hasId taskID) ts
      then ({| Store.lists :=
                 Store.setTasks (Store.lists w) listID
                   (replaceTask taskID body ts);
               Store.replies := Store.replies w;
               Store.fresh := Store.fresh w |}, inr body)
      else (w, inl "Task not found")
  | None => (w, inl "Task list not found")
  end.

Definition backend : UpdateBackend Store.t := {| Tasks_Update := doUpdate |}.

End StoreUpdate.

(* ================================================================== *)
(** ** More stores and answers *)

Module Scenes.

(** A list whose tasks all have a parent. *)
Definition onlyChildren (texts : list string) : Store.t :=
  {| Store.lists := [(Demo.backlog, [Demo.child "A1" "Outline" "A";
                                     Demo.child "A2" "Figures" "A"])];
     Store.replies := Demo.answers texts; Store.fresh := 0 |}.

(** The backlog with a subtask of A between the top-level tasks. *)
Definition withChild (texts : list string) : Store.t :=
  {| Store.lists := [(Demo.backlog,
                      [Demo.taskA; Demo.child "A1" "Outline" "A";
                       Demo.taskB; Demo.taskC])];
     Store.replies := Demo.answers texts; Store.fresh := 0 |}.

(** Records that are valid as they are. *)
Definition rankTies : list TaskPriority :=
  [Demo.record "A" 10 "00001"; Demo.record "A" 20 "00002";
   Demo.record "B" 30 "00003"].

Definition byScore (t : Task) (score : Z) : VariantB.taskWithPriority :=
  {| VariantB.task := t; VariantB.priority := Float64.of_Z score |}.

Definition ghost : Task := Demo.top "X" "Ghost" "".

(** The store, except that it refuses to create a task titled [title]. *)
Definition refusing (title : string) : Backend Store.t := {|
  Tasklists_List := Store.doListTasklists;
  Tasks_List := Store.doListTasks;
  Tasks_Get := Store.doGet;
  Tasks_Move := Store.doMove;
  Tasks_Insert := fun listID body parent w =>
    if Title body =? title then (w, inl "Quota exceeded")
    else Store.doInsert listID body parent w;
  GenerateContent := Store.doGenerate
|}.

(** Three titles proposed under A. *)
Definition threeTitles : SubtaskSuggestion :=
  Demo.suggestion "A" ["Research"; "Design"; "Build"].

(** The positions put A before B, the scores B before A. *)
Definition rankAgainst : list TaskPriority :=
  [Demo.record "A" 10 "00001"; Demo.record "B" 90 "00002"].

End Scenes.

(* ================================================================== *)
(** ** What the further properties talk about *)

(** An event CreateSubtasks may add for the suggestions [ss]: the fetch of
    a suggestion's parent, or an insert under that parent, named in the
    body and in the call, of one of the suggestion's titles. *)
Definition createEvent (taskListId : string) (ss : list SubtaskSuggestion)
    (ev : Event) : Prop :=
  exists s,
    In s ss
    /\ ((exists r, ev = EvTasksGet taskListId (ParentTaskID s) r)
        \/ (exists body,
               ev = EvTasksInsert taskListId body (ParentTaskID s)
               /\ Parent body = ParentTaskID s
               /\ In (Title body) (Subtasks s))).

(** The insert events for the titles [titles] of a suggestion. *)
Definition insertEvents (taskListId : string) (s : SubtaskSuggestion)
    (p : Task) (titles : list string) : list Event :=
  map (fun title =>
         EvTasksInsert taskListId (newSubtask s p title) (ParentTaskID s))
    titles.

(** The number of top-level tasks of [rest] that some task of [tasks]
    names as parent. *)
Definition parentsIn (tasks rest : list Task) : nat :=
  List.length
    (filter (fun task =>
               isTopLevel task
               && existsb (fun t => Parent t =? Id task) tasks) rest).

(** The move and pause events of the earlier variant's loop over the tasks
    after the first. *)
Fixpoint laterMoves (listID : string) (previousTask : Task)
    (rest : list VariantB.taskWithPriority) : list Event :=
  match rest with
  | [] => []
  | cur :: rest' =>
      EvTasksMove listID (Id (VariantB.task cur))
        (previousOf (Id previousTask))
      :: EvSleep 100 :: laterMoves listID (VariantB.task cur) rest'
  end.

(* ================================================================== *)
(** * Properties *)

(** ** Decimal strings *)

Module GoStringFacts.
Import GoString.

Lemma len_append (a b : string) : len (a ++ b) = len a + len b.
Proof.
  unfold len. induction a as [|c a IH]; simpl; [reflexivity|].
  now rewrite IH.
Qed.

Lemma len_zeros (k : nat) : len (zeros k) = k.
Proof. unfold len. induction k; simpl; congruence. Qed.

Lemma decimal_acc_zeros (k : nat) (s : string) :
  decimal_acc 0 (zeros k ++ s) = decimal_acc 0 s.
Proof. induction k; simpl; auto. Qed.

Lemma decimal_step (acc : positive) (c : ascii) (k : positive) :
  digit_value c = Npos k ->
  (10 * Npos acc + digit_value c)%N = Npos (Pos.add k (Pos.mul 10 acc)).
Proof. intros ->. lia. Qed.

Lemma decimal_acc_pos (d : Decimal.uint) (acc : positive) :
  decimal_acc (Npos acc) (NilEmpty.string_of_uint d)
  = Npos (Pos.of_uint_acc d acc).
Proof.
  revert acc.
  induction d; intro acc;
    cbn [decimal_acc NilEmpty.string_of_uint Pos.of_uint_acc];
    try reflexivity;
    try (erewrite decimal_step by reflexivity; apply IHd).
  rewrite <- IHd. f_equal.
Qed.

Lemma decimal_value_of_uint (d : Decimal.uint) :
  decimal_value (NilEmpty.string_of_uint d) = N.of_uint d.
Proof.
  unfold decimal_value, N.of_uint.
  induction d;
    cbn [decimal_acc NilEmpty.string_of_uint Pos.of_uint];
    try reflexivity; try exact IHd;
    apply (decimal_acc_pos d).
Qed.

(** [itoa] prints the number: reading the digits back gives it. *)
Lemma decimal_value_itoa (n : N) : decimal_value (itoa n) = n.
Proof.
  unfold itoa. rewrite decimal_value_of_uint.
  apply DecimalN.Unsigned.of_to.
Qed.

(** [%05d] prints the number, zeros in front not changing its value. *)
Lemma decimal_value_Sprintf_05d (n : N) :
  decimal_value (Sprintf_05d n) = n.
Proof.
  unfold Sprintf_05d, decimal_value.
  rewrite decimal_acc_zeros. apply decimal_value_itoa.
Qed.

Lemma all_digits_append (a b : string) :
  all_digits (a ++ b) = all_digits a && all_digits b.
Proof.
  induction a as [|c a IH]; simpl; [reflexivity|].
  now rewrite IH, andb_assoc.
Qed.

Lemma all_digits_zeros (k : nat) : all_digits (zeros k) = true.
Proof. induction k; simpl; auto. Qed.

Lemma all_digits_of_uint (d : Decimal.uint) :
  all_digits (NilEmpty.string_of_uint d) = true.
Proof. induction d; simpl; auto. Qed.

Lemma all_digits_Sprintf_05d (n : N) : all_digits (Sprintf_05d n) = true.
Proof.
  unfold Sprintf_05d, itoa.
  now rewrite all_digits_append, all_digits_zeros, all_digits_of_uint.
Qed.

(** The printed width is five, or the number of digits when that is more. *)
Lemma len_Sprintf_05d (n : N) :
  len (Sprintf_05d n) = Nat.max 5 (len (itoa n)).
Proof.
  unfold Sprintf_05d. rewrite len_append, len_zeros. lia.
Qed.

End GoStringFacts.

(** ** The order of Go strings *)

Module StringOrder.

Lemma ascii_compare_refl (c : ascii) : Ascii.compare c c = Eq.
Proof. apply N.compare_refl. Qed.

Lemma compare_refl (s : string) : String.compare s s = Eq.
Proof.
  induction s as [|c s IH]; simpl; [reflexivity|].
  now rewrite ascii_compare_refl.
Qed.

Lemma compare_le_trans (a b c : string) :
  String.compare a b <> Gt -> String.compare b c <> Gt ->
  String.compare a c <> Gt.
Proof.
  revert b c.
  induction a as [|x a IH]; intros [|y b] [|z c]; simpl;
    try congruence.
  unfold Ascii.compare.
  destruct (N.compare_spec (N_of_ascii x) (N_of_ascii y)) as [E1|L1|G1];
    destruct (N.compare_spec (N_of_ascii y) (N_of_ascii z)) as [E2|L2|G2];
    try congruence; intros H1 H2.
  - rewrite E1, E2, N.compare_refl. now apply IH with b.
  - rewrite E1. apply N.compare_lt_iff in L2. now rewrite L2.
  - rewrite <- E2. apply N.compare_lt_iff in L1. now rewrite L1.
  - assert (L : (N_of_ascii x < N_of_ascii z)%N) by lia.
    apply N.compare_lt_iff in L. now rewrite L.
Qed.

Lemma ltb_false_iff (a b : string) :
  String.ltb a b = false <-> String.compare b a <> Gt.
Proof.
  unfold String.ltb. rewrite (String.compare_antisym b a).
  destruct (String.compare a b); simpl; split; congruence.
Qed.

Lemma ltb_irrefl (a : string) : String.ltb a a = false.
Proof. unfold String.ltb. now rewrite compare_refl. Qed.

Lemma ltb_incomparable (a b c : string) :
  String.ltb a b = false -> String.ltb b c = false -> String.ltb a c = false.
Proof.
  rewrite !ltb_false_iff. intros H1 H2. now apply compare_le_trans with b.
Qed.

Lemma ltb_asym (a b : string) :
  String.ltb a b = true -> String.ltb b a = false.
Proof.
  unfold String.ltb. rewrite (String.compare_antisym a b).
  destruct (String.compare b a); simpl; congruence.
Qed.

Lemma ltb_trans (a b c : string) :
  String.ltb a b = true -> String.ltb b c = true -> String.ltb a c = true.
Proof.
  intros H1 H2.
  destruct (String.ltb a c) eqn:E; [reflexivity|exfalso].
  (* c <= a < b, so [b < c] fails *)
  assert (H3 : String.ltb b c = false).
  { apply ltb_incomparable with a; [now apply ltb_asym | exact E]. }
  congruence.
Qed.

(** Lexicographic order on position strings is what [sort.Slice] needs. *)
Lemma lessByPosition_swo : strict_weak_order lessByPosition.
Proof.
  unfold lessByPosition, GoString.lt. constructor.
  - intro a. apply ltb_irrefl.
  - intros a b c. apply ltb_trans.
  - intros a b c. apply ltb_incomparable.
Qed.

Import GoString.

Lemma digit_value_bound (c : ascii) :
  is_digit c = true -> (digit_value c <= 9)%N.
Proof.
  unfold is_digit, digit_value. rewrite andb_true_iff.
  intros [H1 H2]. apply N.leb_le in H1, H2. lia.
Qed.

Lemma digit_compare (c d : ascii) :
  is_digit c = true -> is_digit d = true ->
  Ascii.compare c d = N.compare (digit_value c) (digit_value d).
Proof.
  unfold is_digit, digit_value, Ascii.compare. rewrite !andb_true_iff.
  intros [H1 _] [H2 _]. apply N.leb_le in H1, H2.
  destruct (N.compare_spec (N_of_ascii c) (N_of_ascii d));
    symmetry; [apply N.compare_eq_iff | apply N.compare_lt_iff
              | apply N.compare_gt_iff]; lia.
Qed.

(** On digit strings of one width, comparing the strings and comparing the
    numbers they denote is the same, whatever was read before them. *)
Lemma decimal_acc_compare (s t : string) :
  forall a b : N,
    len s = len t -> all_digits s = true -> all_digits t = true ->
    N.compare (decimal_acc a s) (decimal_acc b t)
    = match N.compare a b with
      | Eq => String.compare s t
      | ne => ne
      end.
Proof.
  revert t. unfold len.
  induction s as [|c s IH]; intros [|d t] a b Hlen Hs Ht;
    simpl in Hlen; try discriminate.
  - simpl. now destruct (N.compare a b).
  - simpl in Hs, Ht. apply andb_true_iff in Hs, Ht.
    destruct Hs as [Hc Hs], Ht as [Hd Ht].
    cbn [decimal_acc String.compare].
    rewrite (IH t) by (auto; lia).
    pose proof (digit_value_bound c Hc) as Bc.
    pose proof (digit_value_bound d Hd) as Bd.
    rewrite (digit_compare c d Hc Hd).
    destruct (N.compare_spec a b) as [E|L|G].
    + subst b.
      destruct (N.compare_spec (digit_value c) (digit_value d)) as [E'|L'|G'].
      * rewrite E', N.compare_refl. reflexivity.
      * assert (X : (10 * a + digit_value c < 10 * a + digit_value d)%N)
          by lia.
        apply N.compare_lt_iff in X. now rewrite X.
      * assert (X : (10 * a + digit_value d < 10 * a + digit_value c)%N)
          by lia.
        apply N.compare_gt_iff in X. now rewrite X.
    + assert (X : (10 * a + digit_value c < 10 * b + digit_value d)%N)
        by lia.
      apply N.compare_lt_iff in X. now rewrite X.
    + assert (X : (10 * b + digit_value d < 10 * a + digit_value c)%N)
        by lia.
      apply N.compare_gt_iff in X. now rewrite X.
Qed.

Lemma decimal_compare (s t : string) :
  len s = len t -> all_digits s = true -> all_digits t = true ->
  String.compare s t = N.compare (decimal_value s) (decimal_value t).
Proof.
  intros Hlen Hs Ht. unfold decimal_value.
  now rewrite (decimal_acc_compare s t 0 0 Hlen Hs Ht).
Qed.

End StringOrder.

(** ** Comparing scores *)

Module Float64Facts.
Import Float64.

Lemma fifty_in_range : in_0_100 fifty = true.
Proof. reflexivity. Qed.

Lemma not_below_zero (x : t) :
  is_nan x = false -> ltb x zero = false -> leb zero x = true.
Proof.
  destruct x as [s|s| |s m e]; try destruct s;
    unfold ltb, leb, SFltb, SFleb, zero, is_nan, SFcompare; congruence.
Qed.

(** Of two positive finite numbers, one is above the other exactly when it
    is not at most the other: both comparisons look at the same exponents
    and mantissas. *)
Lemma finite_antisym (k m : positive) (ke e : Z) :
  SFltb (S754_finite false k ke) (S754_finite false m e) = false
  <-> SFleb (S754_finite false m e) (S754_finite false k ke) = true.
Proof.
  unfold SFltb, SFleb, SFcompare.
  fold (Pos.compare k m). fold (Pos.compare m k).
  rewrite (Z.compare_antisym e ke), (Pos.compare_antisym m k).
  destruct (e ?= ke)%Z; simpl; try (split; congruence).
  destruct (Pos.compare m k); simpl; split; congruence.
Qed.

Lemma finite_vs_hundred (m : positive) (e : Z) :
  ltb hundred (S754_finite false m e) = false
  <-> leb (S754_finite false m e) hundred = true.
Proof. exact (finite_antisym 7036874417766400 m (-46) e). Qed.

Lemma not_above_hundred (x : t) :
  is_nan x = false -> ltb hundred x = false -> leb x hundred = true.
Proof.
  destruct x as [s|s| |s m e]; try destruct s;
    try (intros _; apply finite_vs_hundred);
    unfold ltb, leb, SFltb, SFleb, hundred, is_nan, SFcompare; congruence.
Qed.

Lemma within_not_below (x : t) : leb zero x = true -> ltb x zero = false.
Proof.
  destruct x as [s|s| |s m e]; try destruct s;
    unfold ltb, leb, SFltb, SFleb, zero, is_nan, SFcompare; congruence.
Qed.

Lemma within_not_above (x : t) : leb x hundred = true -> ltb hundred x = false.
Proof.
  destruct x as [s|s| |s m e]; try destruct s;
    try apply finite_vs_hundred;
    unfold ltb, leb, SFltb, SFleb, hundred, SFcompare; congruence.
Qed.

(** For a number, the test the repair loop makes is the test of being
    outside [0,100]. *)
Lemma out_of_range_test (x : t) :
  is_nan x = false ->
  ltb x zero || ltb hundred x = negb (in_0_100 x).
Proof.
  intro N. unfold in_0_100.
  destruct (ltb x zero) eqn:E1; destruct (ltb hundred x) eqn:E2; simpl.
  - destruct (leb zero x) eqn:L; [|reflexivity].
    apply within_not_below in L. congruence.
  - destruct (leb zero x) eqn:L; [|reflexivity].
    apply within_not_below in L. congruence.
  - destruct (leb x hundred) eqn:L; [|now rewrite andb_false_r].
    apply within_not_above in L. congruence.
  - now rewrite (not_below_zero x N E1), (not_above_hundred x N E2).
Qed.

End Float64Facts.

(** ** The runtime meets the library contracts *)

Module RuntimeFacts.
Import Runtime.

Section Sorting.
Variable A : Type.
Variable less : A -> A -> bool.

Lemma sink_perm (x : A) (l : list A) : Permutation (x :: l) (sink less x l).
Proof.
  induction l as [|y l IH]; simpl; [reflexivity|].
  destruct (less x y); [|reflexivity].
  rewrite perm_swap. now constructor.
Qed.

Lemma fold_sink_perm (l acc : list A) :
  Permutation (l ++ acc)%list
    (fold_left (fun sortedRev x => sink less x sortedRev) l acc).
Proof.
  revert acc. induction l as [|x l IH]; intro acc; simpl; [reflexivity|].
  rewrite <- IH. rewrite <- sink_perm. apply Permutation_middle.
Qed.

Lemma insertionSort_perm (l : list A) : Permutation l (insertionSort less l).
Proof.
  unfold insertionSort. rewrite <- Permutation_rev, <- fold_sink_perm.
  now rewrite app_nil_r.
Qed.

Hypothesis swo : strict_weak_order less.

Lemma less_asym (a b : A) : less a b = true -> less b a = false.
Proof.
  intro H. destruct (less b a) eqn:E; [|reflexivity].
  pose proof (swo_trans swo _ _ _ H E) as X.
  now rewrite (swo_irrefl swo) in X.
Qed.

Lemma sink_descending (x : A) (l : list A) :
  descending less l -> descending less (sink less x l).
Proof.
  unfold descending.
  induction l as [|y l IH]; intro H; simpl.
  - repeat constructor.
  - inversion H as [|? ? Hl Hy]; subst.
    destruct (less x y) eqn:E.
    + constructor; [now apply IH|].
      apply (Permutation_Forall (sink_perm x l)).
      constructor; [now apply less_asym | exact Hy].
    + constructor; [exact H|].
      constructor; [exact E|].
      apply Forall_forall. intros z Hz.
      rewrite Forall_forall in Hy.
      exact (swo_incomparable swo _ _ _ E (Hy z Hz)).
Qed.

Lemma fold_sink_descending (l acc : list A) :
  descending less acc ->
  descending less
    (fold_left (fun sortedRev x => sink less x sortedRev) l acc).
Proof.
  revert acc. induction l as [|x l IH]; intros acc H; simpl; [exact H|].
  apply IH. now apply sink_descending.
Qed.

Lemma sorted_snoc (R : A -> A -> Prop) (l : list A) (x : A) :
  StronglySorted R l -> Forall (fun y => R y x) l ->
  StronglySorted R (l ++ [x])%list.
Proof.
  induction 1 as [|y l Hl IH Hy]; intro F; simpl.
  - repeat constructor.
  - inversion F; subst. constructor; [now apply IH|].
    apply Forall_app. split; [exact Hy | now repeat constructor].
Qed.

Lemma descending_rev (l : list A) :
  descending less l -> sorted_by less (rev l).
Proof.
  unfold descending, sorted_by.
  induction 1 as [|y l Hl IH Hy]; simpl; [constructor|].
  apply sorted_snoc; [exact IH|].
  apply Forall_rev. exact Hy.
Qed.

Lemma insertionSort_sorted (l : list A) : sorted_by less (insertionSort less l).
Proof.
  unfold insertionSort. apply descending_rev, fold_sink_descending.
  constructor.
Qed.

End Sorting.

Lemma decodePriorities_number table s ps :
  decodePriorities table s = inr ps ->
  Forall (fun p => Float64.is_nan (Priority p) = false) ps.
Proof.
  unfold decodePriorities.
  destruct (lookup s table) as [l|]; [|discriminate].
  destruct (forallb _ l) eqn:E; [|discriminate].
  intro H. injection H as <-.
  rewrite forallb_forall in E. apply Forall_forall.
  intros p Hp. specialize (E p Hp). now destruct (Float64.is_nan (Priority p)).
Qed.

End RuntimeFacts.

Lemma tableRuntime_laws (priorityDocs : list (string * list TaskPriority))
    (suggestionDocs : list (string * list SubtaskSuggestion)) :
  GoRuntimeLaws (tableRuntime priorityDocs suggestionDocs).
Proof.
  constructor.
  - apply RuntimeFacts.decodePriorities_number.
  - intros A less l. apply RuntimeFacts.insertionSort_perm.
  - intros A less l swo. now apply RuntimeFacts.insertionSort_sorted.
Qed.

(** ** Running the monad *)

Module MonadFacts.

Section Facts.
Variable W : Type.
Variables A B : Type.

Lemma bind_ok (m : M W A) (k : A -> M W B) s s' b :
  bind m k s = (s', inr b) ->
  exists a s1, m s = (s1, inr a) /\ k a s1 = (s', inr b).
Proof.
  unfold bind. destruct (m s) as [s1 [e|a]]; intro H; [discriminate|].
  now exists a, s1.
Qed.

Lemma bind_err (m : M W A) (k : A -> M W B) s s' e :
  bind m k s = (s', inl e) ->
  m s = (s', inl e)
  \/ exists a s1, m s = (s1, inr a) /\ k a s1 = (s', inl e).
Proof.
  unfold bind. destruct (m s) as [s1 [e1|a]]; intro H.
  - left. congruence.
  - right. now exists a, s1.
Qed.

Lemma bind_step (m : M W A) (k : A -> M W B) s s1 a :
  m s = (s1, inr a) -> bind m k s = k a s1.
Proof. unfold bind. now intros ->. Qed.

Lemma bind_stop (m : M W A) (k : A -> M W B) s s1 e :
  m s = (s1, inl e) -> bind m k s = (s1, inl e).
Proof. unfold bind. now intros ->. Qed.

Lemma wrapErr_ok (f : string -> string) (m : M W A) s s' a :
  wrapErr f m s = (s', inr a) <-> m s = (s', inr a).
Proof.
  unfold wrapErr. destruct (m s) as [s1 [e|a1]]; split; congruence.
Qed.

Lemma wrapErr_err (f : string -> string) (m : M W A) s s' e :
  wrapErr f m s = (s', inl e) ->
  exists e0, m s = (s', inl e0) /\ e = f e0.
Proof.
  unfold wrapErr. destruct (m s) as [s1 [e1|a1]]; intro H; [|discriminate].
  exists e1. split; congruence.
Qed.

Lemma wrapErr_stop (f : string -> string) (m : M W A) s s' e :
  m s = (s', inl e) -> wrapErr f m s = (s', inl (f e)).
Proof. unfold wrapErr. now intros ->. Qed.

Lemma remote_run (ev : string + A -> Event) (op : W -> W * (string + A)) s :
  remote ev op s
  = ({| world := fst (op (world s));
        trace := (trace s ++ [ev (snd (op (world s)))])%list |},
     snd (op (world s))).
Proof. unfold remote. now destruct (op (world s)). Qed.

End Facts.

End MonadFacts.

(** ** Validation of a ranking response *)

Module ValidationFacts.
Import GoString GoStringFacts Float64 Float64Facts MonadFacts.

Lemma repairAt_TaskID i p : TaskID (repairAt i p) = TaskID p.
Proof.
  unfold repairAt.
  destruct (_ || _); destruct (negb _); reflexivity.
Qed.

Lemma repairAt_Explanation i p : Explanation (repairAt i p) = Explanation p.
Proof.
  unfold repairAt.
  destruct (_ || _); destruct (negb _); reflexivity.
Qed.

Lemma repairAt_Priority i p :
  Priority (repairAt i p)
  = if ltb (Priority p) zero || ltb hundred (Priority p)
    then fifty else Priority p.
Proof.
  unfold repairAt.
  destruct (_ || _); destruct (negb _); reflexivity.
Qed.

Lemma repairAt_NewPosition i p :
  NewPosition (repairAt i p)
  = if negb (len (NewPosition p) =? 5)%nat
    then Sprintf_05d (N.of_nat (i + 1)) else NewPosition p.
Proof.
  unfold repairAt.
  destruct (_ || _); simpl; destruct (negb _); reflexivity.
Qed.

Lemma repairFrom_length i ps : List.length (repairFrom i ps) = List.length ps.
Proof. revert i. induction ps; intro i; simpl; auto. Qed.

Lemma repairFrom_TaskID i ps : map TaskID (repairFrom i ps) = map TaskID ps.
Proof.
  revert i. induction ps as [|p ps IH]; intro i; simpl; [reflexivity|].
  now rewrite repairAt_TaskID, IH.
Qed.

Lemma repairFrom_Explanation i ps :
  map Explanation (repairFrom i ps) = map Explanation ps.
Proof.
  revert i. induction ps as [|p ps IH]; intro i; simpl; [reflexivity|].
  now rewrite repairAt_Explanation, IH.
Qed.

(** The record at index [k] of the result is the repair, at its index, of
    the record at index [k] of the decoded slice. *)
Lemma repairFrom_nth i ps k :
  nth_error (repairFrom i ps) k
  = option_map (repairAt (i + k)) (nth_error ps k).
Proof.
  revert i k. induction ps as [|p ps IH]; intros i [|k]; simpl; auto.
  - now rewrite Nat.add_0_r.
  - rewrite IH. now rewrite Nat.add_succ_r.
Qed.

(** After the repair loop a score that is a number is within [0,100]. *)
Lemma repairAt_in_range i p :
  is_nan (Priority p) = false -> in_0_100 (Priority (repairAt i p)) = true.
Proof.
  intro N. rewrite repairAt_Priority, (out_of_range_test _ N).
  destruct (in_0_100 (Priority p)) eqn:E; simpl; [exact E|].
  apply fifty_in_range.
Qed.

Lemma repairAt_width i p :
  len (NewPosition (repairAt i p)) = 5
  \/ (len (NewPosition p) <> 5
      /\ NewPosition (repairAt i p) = Sprintf_05d (N.of_nat (i + 1))
      /\ 5 < len (itoa (N.of_nat (i + 1)))).
Proof.
  rewrite repairAt_NewPosition.
  destruct (Nat.eqb_spec (len (NewPosition p)) 5) as [E|E]; simpl;
    [now left|].
  rewrite len_Sprintf_05d.
  destruct (Nat.le_gt_cases (len (itoa (N.of_nat (i + 1)))) 5);
    [left; lia | right; auto].
Qed.

Section Call.
Variable W : Type.
Variable B : Backend W.
Variable G : GoRuntime.

Lemma generateText_ok p s s' text :
  generateText B p s = (s', inr text) ->
  s' = {| world := fst (GenerateContent B p (world s));
          trace := (trace s ++ [EvGenerate p])%list |}
  /\ exists parts cands,
       snd (GenerateContent B p (world s)) = inr ((text :: parts) :: cands).
Proof.
  unfold generateText. intro H.
  apply bind_ok in H. destruct H as (resp & s1 & H1 & H2).
  apply wrapErr_ok in H1. rewrite remote_run in H1.
  injection H1 as <- Hr.
  destruct resp as [|[|t parts] cands]; try discriminate.
  injection H2 as <- <-. split; [reflexivity|].
  now exists parts, cands.
Qed.

(** A returned slice is the repair of the slice decoded from the cleaned
    response text, which had as many records as the batch has tasks. *)
Lemma Analyze_ok tasks s s' rs :
  AnalyzeAndPrioritizeTasks B G tasks s = (s', inr rs) ->
  exists text ds,
    generateText B (RankingPrompt tasks) s = (s', inr text)
    /\ Unmarshal_TaskPriority G (cleanResponse G text) = inr ds
    /\ List.length ds = List.length tasks
    /\ rs = repairFrom 0 ds.
Proof.
  unfold AnalyzeAndPrioritizeTasks. intro H.
  apply bind_ok in H. destruct H as (text & s1 & H1 & H2).
  destruct (Unmarshal_TaskPriority G (cleanResponse G text)) as [e|ds] eqn:D;
    [discriminate|].
  unfold validatePriorities in H2.
  destruct (Nat.eqb_spec (List.length ds) (List.length tasks)) as [E|E];
    simpl in H2; [|discriminate].
  injection H2 as <- <-.
  now exists text, ds.
Qed.


Lemma Analyze_run tasks s text parts cands ds :
  snd (GenerateContent B (RankingPrompt tasks) (world s))
    = inr ((text :: parts) :: cands) ->
  Unmarshal_TaskPriority G (cleanResponse G text) = inr ds ->
  AnalyzeAndPrioritizeTasks B G tasks s
  = ({| world := fst (GenerateContent B (RankingPrompt tasks) (world s));
        trace := (trace s ++ [EvGenerate (RankingPrompt tasks)])%list |},
     validatePriorities tasks ds).
Proof.
  intros Hg Hd.
  unfold AnalyzeAndPrioritizeTasks, generateText, bind, wrapErr, remote.
  destruct (GenerateContent B (RankingPrompt tasks) (world s)) as [w' r].
  simpl in Hg |- *. subst r. unfold ret. rewrite Hd.
  unfold liftResult, fail, ret.
  now destruct (validatePriorities tasks ds).
Qed.

End Call.
End ValidationFacts.

(* ================================================================== *)
(** * The claims *)

Module Claims.
Import GoString GoStringFacts Float64 Float64Facts MonadFacts ValidationFacts.

(** ** Validation and repair of a ranking response *)

(** C10.  The repair step changes nothing but scores and positions: the
    repaired slice has the length of the decoded one, and the task
    identifiers and the explanations, read in order, are those that were
    decoded.  The slice the validation returns is that repaired slice, and
    validation fails only on a count that differs from the batch's. *)
Theorem C10_repair_keeps_identity (tasks : list Task)
    (ds : list TaskPriority) :
  List.length (repairFrom 0 ds) = List.length ds
  /\ map TaskID (repairFrom 0 ds) = map TaskID ds
  /\ map Explanation (repairFrom 0 ds) = map Explanation ds
  /\ match validatePriorities tasks ds with
     | inr rs => rs = repairFrom 0 ds
     | inl _ => List.length ds <> List.length tasks
     end.
Proof.
  split; [apply repairFrom_length|].
  split; [apply repairFrom_TaskID|].
  split; [apply repairFrom_Explanation|].
  unfold validatePriorities.
  destruct (Nat.eqb_spec (List.length ds) (List.length tasks)); simpl; auto.
Qed.

(** C4.  In the repair of a decoded slice, the record at index [k] keeps
    its place; if its score, a number, is outside [0,100] the score
    becomes 50, and if its position is not 5 bytes long the position
    becomes [k+1] printed in decimal and zero-padded to five digits, a
    digit string that denotes [k+1].  The first record's synthesized
    position is "00001". *)
Theorem C4_repair_rule (ds : list TaskPriority) (k : nat) (d : TaskPriority) :
  nth_error ds k = Some d ->
  is_nan (Priority d) = false ->
  exists r,
    nth_error (repairFrom 0 ds) k = Some r
    /\ (in_0_100 (Priority d) = false -> Priority r = fifty)
    /\ (len (NewPosition d) <> 5 ->
        NewPosition r = Sprintf_05d (N.of_nat k + 1)
        /\ all_digits (NewPosition r) = true
        /\ decimal_value (NewPosition r) = (N.of_nat k + 1)%N)
    /\ Sprintf_05d (N.of_nat 0 + 1) = "00001".
Proof.
  intros Hk Hnan. exists (repairAt k d).
  split; [now rewrite repairFrom_nth, Hk|].
  split; [|split; [|reflexivity]].
  - intro Hout. rewrite repairAt_Priority, (out_of_range_test _ Hnan), Hout.
    reflexivity.
  - intro Hlen. rewrite repairAt_NewPosition.
    apply Nat.eqb_neq in Hlen. rewrite Hlen. simpl negb. cbv iota.
    replace (N.of_nat (k + 1)) with (N.of_nat k + 1)%N by lia.
    split; [reflexivity|].
    split; [apply all_digits_Sprintf_05d | apply decimal_value_Sprintf_05d].
Qed.

Lemma C4_repair_rule_witness :
  exists r,
    nth_error (repairFrom 0 Demo.rankOff) 1 = Some r
    /\ (in_0_100 (Priority (Demo.record "B" (-5) "0000002")) = false ->
        Priority r = fifty)
    /\ (len "0000002" <> 5 ->
        NewPosition r = Sprintf_05d (N.of_nat 1 + 1)
        /\ all_digits (NewPosition r) = true
        /\ decimal_value (NewPosition r) = (N.of_nat 1 + 1)%N)
    /\ Sprintf_05d (N.of_nat 0 + 1) = "00001".
Proof.
  apply (C4_repair_rule Demo.rankOff 1 (d := Demo.record "B" (-5) "0000002"));
    reflexivity.
Defined.

(** The scores 150 and -5 become 50, the positions of 3 and 7 bytes become
    the ranks of their places; the third record is left as it is. *)
Example repair_of_an_off_answer :
  repairFrom 0 Demo.rankOff
  = [ {| TaskID := "A"; Priority := fifty; Explanation := "because";
         NewPosition := "00001" |};
      {| TaskID := "B"; Priority := fifty; Explanation := "because";
         NewPosition := "00002" |};
      Demo.record "C" 95 "00003" ].
Proof. reflexivity. Qed.

(** A score within [0,100] and a position of 5 bytes are left alone. *)
Lemma repair_leaves_valid_fields (i : nat) (p : TaskPriority) :
  (in_0_100 (Priority p) = true -> Priority (repairAt i p) = Priority p)
  /\ (len (NewPosition p) = 5 -> NewPosition (repairAt i p) = NewPosition p).
Proof.
  split.
  - intro H. rewrite repairAt_Priority.
    unfold in_0_100 in H. apply andb_true_iff in H. destruct H as [H0 H1].
    now rewrite (within_not_below _ H0), (within_not_above _ H1).
  - intro H. rewrite repairAt_NewPosition, H. reflexivity.
Qed.

Lemma narrowFrom_spec (count : nat) (n k : N) :
  narrowFrom count n = true ->
  (n <= k < n + N.of_nat count)%N -> len (itoa k) <= 5.
Proof.
  revert n. induction count as [|c IH]; intros n H Hk; [lia|].
  simpl in H. apply andb_true_iff in H. destruct H as [H1 H2].
  destruct (N.eq_dec k n) as [->|Hne].
  - now apply Nat.leb_le.
  - apply IH with (n := N.succ n); [exact H2 | lia].
Qed.

Lemma itoa_narrow (k : N) : (k < 100000)%N -> len (itoa k) <= 5.
Proof.
  intro H.
  apply narrowFrom_spec with (count := N.to_nat 100000) (n := 0%N);
    [vm_compute; reflexivity | lia].
Qed.

(** Up to 99999 tasks, a returned slice has one valid record per task. *)
Lemma small_batches_validate (W : Type) (B : Backend W) (G : GoRuntime)
    (tasks : list Task) (s s' : State W) (rs : list TaskPriority) :
  GoRuntimeLaws G ->
  AnalyzeAndPrioritizeTasks B G tasks s = (s', inr rs) ->
  List.length rs = List.length tasks
  /\ ((N.of_nat (List.length tasks) < 100000)%N -> Forall validRecord rs).
Proof.
  intros Laws H. apply Analyze_ok in H.
  destruct H as (text & ds & _ & Hd & Hlen & ->).
  split; [now rewrite repairFrom_length|].
  intro Hsmall. apply Forall_forall. intros r Hr.
  apply In_nth_error in Hr. destruct Hr as [k Hk].
  rewrite repairFrom_nth in Hk.
  destruct (nth_error ds k) as [d|] eqn:Ed; [|discriminate].
  injection Hk as <-.
  assert (Hlt : k < List.length ds)
    by (apply nth_error_Some; congruence).
  pose proof (Unmarshal_number Laws _ Hd) as Hnum.
  rewrite Forall_forall in Hnum.
  split.
  - apply repairAt_in_range, Hnum. eapply nth_error_In; eauto.
  - destruct (repairAt_width (0 + k) d) as [E|(_ & _ & Hwide)]; [exact E|].
    exfalso.
    assert (len (itoa (N.of_nat (0 + k + 1))) <= 5)
      by (apply itoa_narrow; lia).
    lia.
Qed.

(** The answer of [n] position-less records is a document of numbers. *)
Lemma manyRecords_numbers (n : nat) :
  forallb (fun p => negb (is_nan (Priority p))) (Demo.manyRecords n) = true.
Proof.
  apply forallb_forall. intros p Hp.
  unfold Demo.manyRecords in Hp. apply in_map_iff in Hp.
  destruct Hp as (k & <- & _). reflexivity.
Qed.

Lemma manyRecords_nth (n k : nat) :
  k < n -> nth_error (Demo.manyRecords n) k = Some (Demo.numberedRecord k).
Proof.
  intro H. unfold Demo.manyRecords.
  rewrite nth_error_map.
  rewrite (nth_error_nth' (seq 0 n) 0) by (now rewrite length_seq).
  now rewrite seq_nth.
Qed.

(** A batch of [n] tasks answered by [n] records that carry no position:
    the call returns the [n] records, the one at index [k] with position
    [k+1] printed by [%05d]. *)
Lemma positionless_answer (n k : nat) :
  k < n ->
  exists s' rs r,
    AnalyzeAndPrioritizeTasks Store.backend
      (tableRuntime [("rank-all", Demo.manyRecords n)] [])
      (Demo.manyTasks n) (Store.start Demo.bigStore)
    = (s', inr rs)
    /\ List.length rs = List.length (Demo.manyTasks n)
    /\ nth_error rs k = Some r
    /\ NewPosition r = Sprintf_05d (N.of_nat k + 1).
Proof.
  intro Hk.
  set (G := tableRuntime [("rank-all", Demo.manyRecords n)] []).
  assert (Hd : Unmarshal_TaskPriority G (cleanResponse G "rank-all")
               = inr (Demo.manyRecords n)).
  { change (cleanResponse G "rank-all") with "rank-all".
    change (Unmarshal_TaskPriority G "rank-all")
      with (if forallb (fun p => negb (is_nan (Priority p)))
                 (Demo.manyRecords n)
            then @inr string _ (Demo.manyRecords n)
            else inl "json: cannot unmarshal number into Go struct field").
    now rewrite manyRecords_numbers. }
  pose proof (Analyze_run Store.backend G (Demo.manyTasks n)
                (Store.start Demo.bigStore)
                (text := "rank-all") (parts := []) (cands := [])
                eq_refl Hd) as Hrun.
  unfold validatePriorities in Hrun.
  assert (Hlen : List.length (Demo.manyRecords n)
                 = List.length (Demo.manyTasks n)).
  { unfold Demo.manyRecords, Demo.manyTasks. now rewrite !length_map. }
  rewrite Hlen, Nat.eqb_refl in Hrun. simpl negb in Hrun. cbv iota in Hrun.
  eexists. eexists. eexists.
  split; [exact Hrun|].
  split; [now rewrite repairFrom_length|].
  split.
  - rewrite repairFrom_nth, manyRecords_nth by exact Hk. reflexivity.
  - rewrite repairAt_NewPosition.
    change (NewPosition (Demo.numberedRecord k)) with EmptyString.
    simpl negb. cbv iota. f_equal. lia.
Qed.

(** C1.  A batch of 100000 tasks answered by 100000 records that carry no
    position: the call returns the 100000 records, and the last one has
    the position "100000", which is six bytes long. *)
Theorem C1_position_width_overflow :
  exists s' rs r,
    AnalyzeAndPrioritizeTasks Store.backend Demo.bigG
      (Demo.manyTasks Demo.hundredThousand) (Store.start Demo.bigStore)
    = (s', inr rs)
    /\ List.length rs = List.length (Demo.manyTasks Demo.hundredThousand)
    /\ nth_error rs (N.to_nat 99999) = Some r
    /\ NewPosition r = "100000"
    /\ len (NewPosition r) = 6.
Proof.
  destruct (@positionless_answer Demo.hundredThousand (N.to_nat 99999))
    as (s' & rs & r & Hrun & Hlen & Hnth & Hpos).
  { unfold Demo.hundredThousand. lia. }
  exists s', rs, r.
  split; [exact Hrun|]. split; [exact Hlen|]. split; [exact Hnth|].
  replace (N.of_nat (N.to_nat 99999) + 1)%N with 100000%N in Hpos by lia.
  rewrite Hpos. split; reflexivity.
Qed.

(** ** Subtask suggestions *)

(** C5.  Once the response text has been read and decoded, the outcome of
    SuggestSubtasks is decided by one comparison: the number of decoded
    suggestions against the number of tasks of the batch whose parent is
    empty, counted from the batch itself.  Equal counts return the
    suggestions; any other count returns the count-mismatch error. *)
Theorem C5_suggestion_count (W : Type) (B : Backend W) (G : GoRuntime)
    (tasks : list Task) (s s' : State W) (text : string)
    (ds : list SubtaskSuggestion) :
  generateText B (SubtaskPrompt tasks) s = (s', inr text) ->
  Unmarshal_SubtaskSuggestion G (cleanResponse G text) = inr ds ->
  SuggestSubtasks B G tasks s
  = (s',
     if (List.length ds =? List.length (filter isTopLevel tasks))%nat
     then inr ds
     else inl ("received incorrect number of suggestions: got "
               ++ fmt_d (List.length ds) ++ ", want "
               ++ fmt_d (List.length (filter isTopLevel tasks)))).
Proof.
  intros Hg Hd. unfold SuggestSubtasks.
  rewrite (bind_step _ _ _ Hg). cbv beta zeta. rewrite Hd.
  unfold validateSuggestions, liftResult.
  now destruct (List.length ds =? _)%nat.
Qed.

Lemma C5_suggestion_count_witness :
  SuggestSubtasks Store.backend Demo.G Demo.fiveTasks
    (Store.start (Demo.store ["suggest-3"]))
  = ({| world := Demo.store [];
        trace := [EvGenerate (SubtaskPrompt Demo.fiveTasks)] |},
     inl "received incorrect number of suggestions: got 3, want 2").
Proof.
  exact (C5_suggestion_count Store.backend Demo.G Demo.fiveTasks
           (Store.start (Demo.store ["suggest-3"]))
           (text := "suggest-3") (ds := Demo.threeSuggestions)
           eq_refl eq_refl).
Defined.

(** ** Subtask creation *)

Lemma append_empty_r (a : string) : a ++ "" = a.
Proof. induction a as [|c a IH]; simpl; congruence. Qed.

Lemma insertCalls_spec (taskListId : string) (s : SubtaskSuggestion)
    (due : string) :
  Forall2 (insertOf taskListId s due) (Subtasks s)
    (insertCalls taskListId s due).
Proof.
  unfold insertCalls. induction (Subtasks s) as [|title titles IH]; simpl;
    constructor; [|exact IH].
  eexists. split; [reflexivity|]. repeat split.
  exists ("Auto-generated subtask" ++ nl ++ "Rationale: "), "".
  unfold nl. simpl. now rewrite append_empty_r.
Qed.

Lemma newSubtask_due (s : SubtaskSuggestion) (p : Task) (title : string) :
  newSubtask s p title
  = {| Id := ""; Title := title; Due := Due p;
       Notes := "Auto-generated subtask" ++ nl ++ "Rationale: "
                ++ Rationale s;
       Status := ""; Parent := ParentTaskID s; Position := "" |}.
Proof.
  unfold newSubtask.
  destruct (String.eqb_spec (Due p) "") as [E|E]; simpl; [|reflexivity].
  now rewrite E.
Qed.

Lemma insertSubtasks_ok (W : Type) (B : Backend W) taskListId s p titles
    (st st' : State W) :
  insertSubtasks B taskListId s p titles st = (st', inr tt) ->
  trace st'
  = (trace st
     ++ map (fun title =>
               EvTasksInsert taskListId (newSubtask s p title)
                 (ParentTaskID s)) titles)%list.
Proof.
  revert st. induction titles as [|title titles IH]; intros st H; simpl in H.
  - injection H as <-. now rewrite app_nil_r.
  - apply bind_ok in H. destruct H as (x & s1 & H1 & H2).
    apply wrapErr_ok in H1. rewrite remote_run in H1.
    injection H1 as <- _. apply IH in H2. rewrite H2. simpl.
    now rewrite <- app_assoc.
Qed.

Lemma CreateSubtasks_app (W : Type) (B : Backend W) taskListId
    (processed rest : list SubtaskSuggestion) (st st1 : State W) :
  CreateSubtasks B taskListId processed st = (st1, inr tt) ->
  CreateSubtasks B taskListId (processed ++ rest)%list st
  = CreateSubtasks B taskListId rest st1.
Proof.
  revert st. induction processed as [|s processed IH]; intros st H.
  - simpl in H. injection H as <-. reflexivity.
  - simpl in H |- *.
    apply bind_ok in H. destruct H as (p & s1 & H1 & H2).
    apply bind_ok in H2. destruct H2 as ([] & s2 & H2 & H3).
    rewrite (bind_step _ _ _ H1), (bind_step _ _ _ H2).
    now apply IH.
Qed.

(** C6, as amended.  When CreateSubtasks has gone through the suggestions
    [processed] with every parent fetched and every insert accepted, what
    it did for them is, suggestion after suggestion, the fetch of the
    parent followed by exactly one insert per proposed title; each insert
    names the suggestion's parent both in the task body and as the call's
    parameter, carries notes that contain the rationale, and has the due
    date of the fetched parent (none when the parent has none).  Whatever
    follows in the slice does not change this. *)
Theorem C6_subtasks_materialized (W : Type) (B : Backend W)
    (taskListId : string) (processed rest : list SubtaskSuggestion)
    (st st1 : State W) :
  CreateSubtasks B taskListId processed st = (st1, inr tt) ->
  (exists parents,
      List.length parents = List.length processed
      /\ trace st1
         = (trace st
            ++ List.concat
                 (map (fun sp => materialized taskListId (fst sp) (snd sp))
                    (combine processed parents)))%list
      /\ Forall2 (fun s p =>
                    List.length (insertCalls taskListId s (Due p))
                    = List.length (Subtasks s)
                    /\ Forall2 (insertOf taskListId s (Due p)) (Subtasks s)
                         (insertCalls taskListId s (Due p)))
           processed parents)
  /\ CreateSubtasks B taskListId (processed ++ rest)%list st
     = CreateSubtasks B taskListId rest st1.
Proof.
  intro H. split; [|now apply CreateSubtasks_app].
  revert st H. induction processed as [|s processed IH]; intros st H.
  - simpl in H. injection H as <-. exists []. simpl.
    rewrite app_nil_r. repeat split. constructor.
  - simpl in H.
    apply bind_ok in H. destruct H as (p & s1 & H1 & H2).
    apply bind_ok in H2. destruct H2 as ([] & s2 & H2 & H3).
    apply wrapErr_ok in H1. rewrite remote_run in H1.
    injection H1 as <- Hp.
    apply insertSubtasks_ok in H2. simpl trace in H2.
    destruct (IH _ H3) as (parents & Hlen & Htr & Hall).
    exists (p :: parents). split; [simpl; congruence|]. split.
    + rewrite Htr, H2. simpl. rewrite Hp. unfold materialized, insertCalls.
      rewrite <- !app_assoc. simpl. do 2 f_equal.
      f_equal. apply map_ext. intro title. now rewrite newSubtask_due.
    + constructor; [|exact Hall].
      split; [unfold insertCalls; apply length_map | apply insertCalls_spec].
Qed.

Lemma C6_subtasks_materialized_witness :
  let st := Store.start (Demo.store []) in
  let st1 := fst (CreateSubtasks Store.backend "L1" Demo.twoSuggestions st) in
  (exists parents,
      List.length parents = List.length Demo.twoSuggestions
      /\ trace st1
         = (trace st
            ++ List.concat (map (fun sp => materialized "L1" (fst sp) (snd sp))
                         (combine Demo.twoSuggestions parents)))%list
      /\ Forall2 (fun s p =>
                    List.length (insertCalls "L1" s (Due p))
                    = List.length (Subtasks s)
                    /\ Forall2 (insertOf "L1" s (Due p)) (Subtasks s)
                         (insertCalls "L1" s (Due p)))
           Demo.twoSuggestions parents)
  /\ CreateSubtasks Store.backend "L1" (Demo.twoSuggestions ++ [])%list st
     = CreateSubtasks Store.backend "L1" [] st1.
Proof.
  intros st st1.
  apply (@C6_subtasks_materialized _ Store.backend "L1" Demo.twoSuggestions
           [] st st1).
  vm_compute. reflexivity.
Defined.

(** C6 as stated fails.  The parent A is fetched; the store creates the
    task for the first of the three proposed titles and refuses the one
    for the second.  The call ends in the error for that title: one task
    has been created for three titles, and no insert is tried for the
    third. *)
Lemma C6_counterexample :
  let run :=
    CreateSubtasks (Scenes.refusing "Design") "L1" [Scenes.threeTitles]
      (Store.start (Demo.store [])) in
  Subtasks Scenes.threeTitles = ["Research"; "Design"; "Build"]
  /\ nth_error (trace (fst run)) 0
     = Some (EvTasksGet "L1" "A" (inr Demo.taskA))
  /\ map (fun ev => match ev with
                    | EvTasksInsert _ body _ => Title body
                    | _ => ""
                    end) (tl (trace (fst run)))
     = ["Research"; "Design"]
  /\ snd run
     = inl "failed to create subtask 'Design' for parent task A: Quota exceeded"
  /\ Store.order (world (fst run)) "L1" = ["new-0"; "A"; "B"; "C"].
Proof. vm_compute. repeat split. Qed.

(** The suggestion of two titles under the parent due on 1 June 2024:
    two inserts, each with that parent and that due date. *)
Example two_titles_two_inserts :
  insertCalls "L1" (Demo.suggestion "A" ["Research"; "Design"])
    (Due Demo.taskA)
  = [EvTasksInsert "L1"
       {| Id := ""; Title := "Research"; Due := "2024-06-01T00:00:00Z";
          Notes := "Auto-generated subtask" ++ nl
                   ++ "Rationale: split by phase";
          Status := ""; Parent := "A"; Position := "" |} "A";
     EvTasksInsert "L1"
       {| Id := ""; Title := "Design"; Due := "2024-06-01T00:00:00Z";
          Notes := "Auto-generated subtask" ++ nl
                   ++ "Rationale: split by phase";
          Status := ""; Parent := "A"; Position := "" |} "A"].
Proof. reflexivity. Qed.

(** ** The order of the ranking *)

Lemma sorted_weaken (A : Type) (R R' : A -> A -> Prop) (l : list A) :
  (forall a b, In a l -> In b l -> R a b -> R' a b) ->
  StronglySorted R l -> StronglySorted R' l.
Proof.
  intros Himp H. induction H as [|a l Hl IH Ha]; constructor.
  - apply IH. intros x y Hx Hy. apply Himp; now right.
  - rewrite Forall_forall in Ha |- *. intros b Hb.
    apply Himp; [now left | now right | now apply Ha].
Qed.

(** ** Replaying the ranking *)

Lemma MoveTask_run (W : Type) (B : Backend W) l id prev (st : State W) :
  MoveTask B l id prev st
  = ({| world := fst (Tasks_Move B l id (previousOf prev) (world st));
        trace := (trace st ++ [EvTasksMove l id (previousOf prev)])%list |},
     match snd (Tasks_Move B l id (previousOf prev) (world st)) with
     | inl e => inl ("unable to move task: " ++ e)
     | inr x => inr x
     end).
Proof.
  unfold MoveTask, wrapErr. fold (previousOf prev). rewrite remote_run.
  now destruct (snd _).
Qed.

Lemma replayCalls_moveCalls (l prev : string) (rs : list TaskPriority) :
  ~ In "" (map TaskID rs) ->
  replayCalls l prev rs = moveCallsFrom l (previousOf prev) (map TaskID rs).
Proof.
  revert prev. induction rs as [|p rs IH]; intros prev H; simpl;
    [reflexivity|].
  f_equal. rewrite IH by (simpl in H; tauto).
  unfold previousOf.
  destruct (String.eqb_spec (TaskID p) ""); [|reflexivity].
  simpl in H. tauto.
Qed.

Lemma moveCallsFrom_length l prev ids :
  List.length (moveCallsFrom l prev ids) = List.length ids.
Proof. revert prev. induction ids; intro prev; simpl; auto. Qed.

(** Whatever the store answers, the loop issues the calls of [replayCalls]
    in order and stops at the first that fails: on success all of them
    were issued; on failure the last one issued is the one that failed,
    and the error is made of that record's identifier and of the store's
    error text. *)
Lemma replayMoves_trace (W : Type) (B : Backend W) (l : string)
    (rs : list TaskPriority) :
  forall (prev : string) (st st' : State W) (r : string + unit),
    replayMoves B l rs prev st = (st', r) ->
    exists k,
      k <= List.length rs
      /\ trace st' = (trace st ++ firstn k (replayCalls l prev rs))%list
      /\ match r with
         | inr _ => k = List.length rs
         | inl e =>
             exists p apiError,
               nth_error rs (k - 1) = Some p /\ 0 < k
               /\ e = "error moving task " ++ TaskID p
                      ++ ": unable to move task: " ++ apiError
         end.
Proof.
  induction rs as [|p rs IH]; intros prev st st' r H; simpl in H.
  - injection H as <- <-. exists 0. simpl. now rewrite app_nil_r.
  - unfold bind, wrapErr in H. rewrite MoveTask_run in H.
    destruct (snd (Tasks_Move B l (TaskID p) (previousOf prev) (world st)))
      as [e|x] eqn:E.
    + injection H as <- <-. exists 1. simpl.
      split; [lia|]. split; [reflexivity|].
      exists p, e. repeat split. lia.
    + apply IH in H. destruct H as (k & Hk & Htr & Hr).
      exists (S k). simpl. split; [lia|].
      split; [now rewrite Htr; simpl; rewrite <- app_assoc|].
      destruct r as [e|u]; [|lia].
      destruct Hr as (q & apiError & Hq & Hpos & He).
      exists q, apiError. repeat split; [|lia|exact He].
      destruct k; [lia|].
      replace (S (S k) - 1) with (S k) by lia.
      replace (S k - 1) with k in Hq by lia. exact Hq.
Qed.

(** *** The store's order under the replay *)

Lemma memId_In i l : memId i l = true <-> In i l.
Proof.
  unfold memId. rewrite existsb_exists. split.
  - intros (x & Hx & E). apply String.eqb_eq in E. now subst.
  - intro H. exists i. split; [exact H | apply String.eqb_refl].
Qed.

Lemma memId_false i l : memId i l = false <-> ~ In i l.
Proof.
  rewrite <- memId_In. destruct (memId i l); split; congruence.
Qed.

Lemma placeAfter_ids p x ts :
  map Id (Store.placeAfter p x ts) = insertAfter p (Id x) (map Id ts).
Proof.
  induction ts as [|y ts IH]; simpl; [reflexivity|].
  unfold Store.hasId. destruct (Id y =? p); simpl; congruence.
Qed.

Lemma without_ids id ts :
  map Id (filter (fun y => negb (Store.hasId id y)) ts)
  = withoutId id (map Id ts).
Proof.
  induction ts as [|y ts IH]; simpl; [reflexivity|].
  unfold Store.hasId at 1. destruct (Id y =? id); simpl; congruence.
Qed.

Lemma find_hasId id ts :
  In id (map Id ts) -> exists x, find (Store.hasId id) ts = Some x /\ Id x = id.
Proof.
  induction ts as [|y ts IH]; simpl; [tauto|].
  unfold Store.hasId at 1.
  destruct (String.eqb_spec (Id y) id) as [E|E].
  - intros _. now exists y.
  - intros [H|H]; [congruence | now apply IH].
Qed.

Lemma existsb_hasId p ts :
  existsb (Store.hasId p) ts = memId p (map Id ts).
Proof.
  induction ts as [|y ts IH]; simpl; [reflexivity|].
  unfold Store.hasId at 1. now rewrite IH, (String.eqb_sym p (Id y)).
Qed.

Lemma moveIn_accepts ts id previous :
  In id (map Id ts) ->
  match previous with
  | None => True
  | Some p => In p (withoutId id (map Id ts))
  end ->
  exists x ts',
    Store.moveIn ts id previous = inr (x, ts')
    /\ map Id ts' = movedOrder (map Id ts) id previous.
Proof.
  intros Hid Hprev. unfold Store.moveIn.
  destruct (find_hasId id ts Hid) as (x & -> & Hx).
  destruct previous as [p|].
  - rewrite existsb_hasId, without_ids.
    apply memId_In in Hprev. rewrite Hprev.
    eexists. eexists. split; [reflexivity|].
    simpl. now rewrite placeAfter_ids, without_ids, Hx.
  - eexists. eexists. split; [reflexivity|].
    simpl. now rewrite without_ids, Hx.
Qed.

Lemma tasksOf_setTasks ls l ts ts' :
  Store.tasksOf ls l = Some ts ->
  Store.tasksOf (Store.setTasks ls l ts') l = Some ts'.
Proof.
  induction ls as [|[tl us] ls IH]; simpl; [discriminate|].
  destruct (TaskList_Id tl =? l) eqn:E; simpl; rewrite E; auto.
Qed.

Lemma withoutId_notin id l : ~ In id l -> withoutId id l = l.
Proof.
  induction l as [|y l IH]; simpl; [reflexivity|]. intro H.
  destruct (String.eqb_spec y id) as [E|E]; simpl; [tauto|].
  f_equal. apply IH. tauto.
Qed.

Lemma memId_app i a b : memId i (a ++ b) = memId i a || memId i b.
Proof. unfold memId. apply existsb_app. Qed.

Lemma withoutId_outside id done l :
  withoutId id (outside done l) = outside (done ++ [id]) l.
Proof.
  unfold withoutId, outside.
  induction l as [|y l IH]; cbn [filter]; [reflexivity|].
  rewrite memId_app. change (memId y [id]) with ((y =? id) || false).
  rewrite orb_false_r.
  destruct (memId y done); cbn [negb orb filter]; [exact IH|].
  destruct (y =? id); cbn [negb filter]; congruence.
Qed.

Lemma insertAfter_last p x d r :
  ~ In p d -> insertAfter p x (d ++ p :: r) = (d ++ p :: x :: r)%list.
Proof.
  induction d as [|y d IH]; simpl; intro H.
  - now rewrite String.eqb_refl.
  - destruct (String.eqb_spec y p) as [E|E]; [tauto|].
    f_equal. apply IH. tauto.
Qed.

(** Moving [id] behind the tasks already placed puts it right after
    them. *)
Lemma movedOrder_next done id rest :
  NoDup done -> ~ In "" done -> ~ In id done ->
  movedOrder (done ++ rest) id (previousOf (last done ""))
  = (done ++ id :: withoutId id rest)%list.
Proof.
  intros Hnd Hne Hid.
  assert (Hw : withoutId id (done ++ rest) = (done ++ withoutId id rest)%list).
  { unfold withoutId. rewrite filter_app.
    f_equal. now apply withoutId_notin. }
  destruct done as [|d0 done'].
  - simpl. reflexivity.
  - assert (Hdone : d0 :: done' <> []) by discriminate.
    destruct (exists_last Hdone) as (d & p & E). rewrite E in *. clear E.
    rewrite last_last. unfold previousOf, movedOrder.
    destruct (String.eqb_spec p "") as [E|E].
    + exfalso. apply Hne. subst. apply in_or_app. right. now left.
    + simpl negb. cbv iota. rewrite Hw, <- !app_assoc. simpl.
      apply insertAfter_last.
      apply NoDup_remove_2 in Hnd. rewrite app_nil_r in Hnd. exact Hnd.
Qed.

Lemma doMove_accepts l id previous (w : Store.t) ts :
  Store.tasksOf (Store.lists w) l = Some ts ->
  In id (map Id ts) ->
  match previous with
  | None => True
  | Some p => In p (withoutId id (map Id ts))
  end ->
  exists x w',
    Store.doMove l id previous w = (w', inr x)
    /\ Store.order w' l = movedOrder (map Id ts) id previous
    /\ exists ts', Store.tasksOf (Store.lists w') l = Some ts'.
Proof.
  intros Hl Hid Hprev.
  destruct (moveIn_accepts ts id previous Hid Hprev) as (x & ts' & Hm & Ho).
  unfold Store.doMove. rewrite Hl, Hm.
  eexists. eexists. split; [reflexivity|].
  unfold Store.order. simpl Store.lists.
  rewrite (tasksOf_setTasks _ _ ts' Hl). split; [exact Ho | now exists ts'].
Qed.

Lemma last_In (A : Type) (l : list A) (d : A) : l <> [] -> In (last l d) l.
Proof.
  intro H. destruct (exists_last H) as (l' & a & ->).
  rewrite last_last. apply in_or_app. right. now left.
Qed.

Lemma previousOf_Some prev p :
  previousOf prev = Some p -> p = prev /\ prev <> "".
Proof.
  unfold previousOf. destruct (String.eqb_spec prev ""); simpl; intro H;
    [discriminate|]. injection H as <-. auto.
Qed.

(** An accepted move of the store is the relative move. *)
Lemma moveIn_order ts id previous x ts' :
  Store.moveIn ts id previous = inr (x, ts') ->
  map Id ts' = movedOrder (map Id ts) id previous.
Proof.
  unfold Store.moveIn. destruct (find (Store.hasId id) ts) as [y|] eqn:F;
    [|discriminate].
  apply find_some in F. destruct F as [_ F]. apply String.eqb_eq in F.
  destruct previous as [p|].
  - destruct (existsb (Store.hasId p) _); [|discriminate].
    intro H. injection H as _ <-.
    simpl. now rewrite placeAfter_ids, without_ids, F.
  - intro H. injection H as _ <-. simpl. now rewrite without_ids, F.
Qed.

Lemma Store_relative_move : RelativeMove Store.backend Store.order.
Proof.
  split.
  - intros l id previous w Hid Hprev. unfold Store.order in Hid, Hprev.
    destruct (Store.tasksOf (Store.lists w) l) as [ts|] eqn:Hts;
      [|contradiction].
    destruct (@doMove_accepts l id previous w ts Hts Hid Hprev)
      as (x & w' & Hmove & _).
    exists x. simpl. now rewrite Hmove.
  - intros l id previous w x. simpl. unfold Store.doMove, Store.order.
    destruct (Store.tasksOf (Store.lists w) l) as [ts|] eqn:Hts;
      [|discriminate].
    destruct (Store.moveIn ts id previous) as [e|[y ts']] eqn:Hm;
      [discriminate|].
    intros _. simpl. rewrite (tasksOf_setTasks _ _ ts' Hts).
    now apply moveIn_order with (x := y).
Qed.

(** The invariant of the replay on a store that keeps the relative move:
    the tasks placed so far, [done], head the list in their order, and the
    others follow in the order they had. *)
Lemma replay_order (W : Type) (B : Backend W)
    (order : W -> string -> list string) (l : string)
    (order0 : list string) (rs : list TaskPriority) :
  RelativeMove B order ->
  forall (done : list string) (st : State W),
    order (world st) l = (done ++ outside done order0)%list ->
    NoDup (done ++ map TaskID rs) ->
    ~ In "" (done ++ map TaskID rs) ->
    incl (map TaskID rs) order0 ->
    exists st',
      replayMoves B l rs (last done "") st = (st', inr tt)
      /\ trace st'
         = (trace st
            ++ moveCallsFrom l (previousOf (last done "")) (map TaskID rs))%list
      /\ order (world st') l
         = ((done ++ map TaskID rs)
            ++ outside (done ++ map TaskID rs) order0)%list.
Proof.
  intro Law.
  induction rs as [|r rs IH]; intros done st Hord Hnd Hne Hin.
  - exists st. simpl. rewrite !app_nil_r. auto.
  - simpl map in *. set (id := TaskID r) in *.
    assert (Hdone : NoDup done) by (now apply NoDup_app_remove_r in Hnd).
    assert (Hid : ~ In id done).
    { intro X. apply NoDup_remove_2 in Hnd. apply Hnd.
      apply in_or_app. now left. }
    assert (Hne' : ~ In "" done)
      by (intro X; apply Hne, in_or_app; now left).
    assert (Hidne : id <> "")
      by (intro X; apply Hne, in_or_app; right; left; exact X).
    assert (Hmem : In id (order (world st) l)).
    { rewrite Hord. apply in_or_app. right. unfold outside.
      apply filter_In. split; [apply Hin; now left|].
      apply negb_true_iff, memId_false, Hid. }
    assert (Hprev : match previousOf (last done "") with
                    | None => True
                    | Some p => In p (withoutId id (order (world st) l))
                    end).
    { destruct (previousOf (last done "")) as [p|] eqn:E; [|exact I].
      apply previousOf_Some in E. destruct E as [-> Hp].
      assert (In (last done "") done).
      { apply last_In. intro X. apply Hp. now rewrite X. }
      unfold withoutId. apply filter_In. split.
      - rewrite Hord. apply in_or_app. now left.
      - apply negb_true_iff, String.eqb_neq. intro X. apply Hid.
        now rewrite <- X. }
    destruct (move_accepted Law l id _ (world st) Hmem Hprev) as (x & Hmove).
    pose proof (move_order Law l id _ (world st) Hmove) as Hord'.
    rewrite Hord, (@movedOrder_next done id _ Hdone Hne' Hid),
      withoutId_outside
      in Hord'.
    set (st1 := {| world := fst (Tasks_Move B l id
                                   (previousOf (last done "")) (world st));
                   trace := (trace st
                             ++ [EvTasksMove l id
                                   (previousOf (last done ""))])%list |}).
    assert (Hstep : replayMoves B l (r :: rs) (last done "") st
                    = replayMoves B l rs id st1).
    { simpl replayMoves. unfold bind, wrapErr. rewrite MoveTask_run.
      fold id. now rewrite Hmove. }
    destruct (IH (done ++ [id])%list st1) as (st' & Hrun & Htr & Hfin).
    + simpl world. rewrite Hord'. now rewrite <- app_assoc.
    + now rewrite <- app_assoc.
    + now rewrite <- app_assoc.
    + intros i Hi. apply Hin. now right.
    + rewrite last_last in Hrun, Htr.
      exists st'. split; [now rewrite Hstep|]. split.
      * rewrite Htr. simpl trace. rewrite <- app_assoc. simpl.
        do 3 f_equal. unfold previousOf.
        destruct (String.eqb_spec id ""); [contradiction | reflexivity].
      * rewrite Hfin. now rewrite <- !app_assoc.
Qed.

(** The same on the list store. *)
Lemma replay_store (l : string) (order0 : list string)
    (rs : list TaskPriority) :
  forall (done : list string) (st : State Store.t),
    Store.order (world st) l = (done ++ outside done order0)%list ->
    (exists ts, Store.tasksOf (Store.lists (world st)) l = Some ts) ->
    NoDup (done ++ map TaskID rs) ->
    ~ In "" (done ++ map TaskID rs) ->
    incl (map TaskID rs) order0 ->
    exists st',
      replayMoves Store.backend l rs (last done "") st = (st', inr tt)
      /\ trace st'
         = (trace st
            ++ moveCallsFrom l (previousOf (last done "")) (map TaskID rs))%list
      /\ Store.order (world st') l
         = ((done ++ map TaskID rs)
            ++ outside (done ++ map TaskID rs) order0)%list.
Proof.
  intros done st Hord _. now apply replay_order with (1 := Store_relative_move).
Qed.

Lemma outside_nil l : outside [] l = l.
Proof.
  unfold outside. induction l as [|y l IH]; [reflexivity|].
  cbn [filter]. change (memId y []) with false. cbn [negb]. now f_equal.
Qed.

Lemma outside_all done l : incl l done -> outside done l = [].
Proof.
  unfold outside. induction l as [|y l IH]; intro H; [reflexivity|].
  assert (Hy : memId y done = true) by (apply memId_In, H; now left).
  cbn [filter]. rewrite Hy. cbn [negb]. apply IH.
  intros i Hi. apply H. now right.
Qed.

(** C2, as amended.  On a store that keeps the relative move, for a list
    that holds the ranked tasks, a ranking that names each of its tasks
    once and none by an empty identifier is replayed without a failure in
    exactly as many move calls as it has records: the first with no
    predecessor, each later one after the task moved just before.
    Afterwards the ranked tasks head the list in ranked order, followed
    by the list's other tasks; when the ranking covers the whole list,
    the store order is the ranked order. *)
Theorem C2_replay_realises_ranking (W : Type) (B : Backend W)
    (order : W -> string -> list string) (l : string)
    (ranked : list TaskPriority) (st : State W) :
  RelativeMove B order ->
  NoDup (map TaskID ranked) ->
  ~ In "" (map TaskID ranked) ->
  incl (map TaskID ranked) (order (world st) l) ->
  exists st',
    replayMoves B l ranked "" st = (st', inr tt)
    /\ trace st' = (trace st ++ moveCalls l (map TaskID ranked))%list
    /\ List.length (moveCalls l (map TaskID ranked)) = List.length ranked
    /\ order (world st') l
       = (map TaskID ranked
          ++ outside (map TaskID ranked) (order (world st) l))%list
    /\ (Permutation (map TaskID ranked) (order (world st) l) ->
        order (world st') l = map TaskID ranked).
Proof.
  intros Law Hnd Hne Hin.
  destruct (@replay_order W B order l (order (world st) l) ranked Law [] st)
    as (st' & Hrun & Htr & Hord); simpl; auto.
  - now rewrite outside_nil.
  - simpl in Hrun, Htr, Hord. exists st'.
    split; [exact Hrun|]. split; [exact Htr|].
    split; [unfold moveCalls; now rewrite moveCallsFrom_length, length_map|].
    split; [exact Hord|].
    intro Hperm. rewrite Hord, outside_all, app_nil_r; [reflexivity|].
    intros i Hi. now apply (Permutation_in _ (Permutation_sym Hperm)).
Qed.

Lemma C2_replay_realises_ranking_witness :
  let ranked := sort_Slice Demo.G lessByPosition Demo.rankCAB in
  exists st',
    replayMoves Store.backend "L1" ranked "" (Store.start (Demo.store []))
    = (st', inr tt)
    /\ trace st'
       = [EvTasksMove "L1" "C" None; EvTasksMove "L1" "A" (Some "C");
          EvTasksMove "L1" "B" (Some "A")]
    /\ List.length (moveCalls "L1" (map TaskID ranked)) = 3
    /\ Store.order (world st') "L1" = ["C"; "A"; "B"].
Proof.
  intro ranked.
  destruct (@C2_replay_realises_ranking _ Store.backend Store.order "L1"
              ranked (Store.start (Demo.store [])) Store_relative_move)
    as (st' & Hrun & Htr & Hlen & Hord & _).
  - vm_compute. repeat constructor; simpl; intuition discriminate.
  - vm_compute. intuition discriminate.
  - vm_compute. intros i Hi. simpl in Hi. simpl. intuition.
  - exists st'. split; [exact Hrun|]. split; [exact Htr|].
    split; [exact Hlen | exact Hord].
Defined.

(** C2 as stated fails.  The answer that ranks C, X and B for the batch A,
    B, C is validated, and so is the answer that names A twice.  Sorted
    into rank order and replayed on the list A, B, C, each is stopped by
    the store at its second move: two move calls are made for three
    records, and the list is left in the order C, A, B in one case and A,
    B, C in the other, which is not the ranked order. *)
Lemma C2_counterexample :
  let batch := [Demo.taskA; Demo.taskB; Demo.taskC] in
  let replay := fun rs =>
    replayMoves Store.backend "L1" (sort_Slice Demo.G lessByPosition rs) ""
      (Store.start (Demo.store [])) in
  validatePriorities batch Demo.rankGhost = inr Demo.rankGhost
  /\ map TaskID (sort_Slice Demo.G lessByPosition Demo.rankGhost)
     = ["C"; "X"; "B"]
  /\ snd (replay Demo.rankGhost)
     = inl "error moving task X: unable to move task: Task not found"
  /\ trace (fst (replay Demo.rankGhost))
     = [EvTasksMove "L1" "C" None; EvTasksMove "L1" "X" (Some "C")]
  /\ Store.order (world (fst (replay Demo.rankGhost))) "L1" = ["C"; "A"; "B"]
  /\ validatePriorities batch Scenes.rankTies = inr Scenes.rankTies
  /\ map TaskID (sort_Slice Demo.G lessByPosition Scenes.rankTies)
     = ["A"; "A"; "B"]
  /\ snd (replay Scenes.rankTies)
     = inl "error moving task A: unable to move task: Previous task not found"
  /\ trace (fst (replay Scenes.rankTies))
     = [EvTasksMove "L1" "A" None; EvTasksMove "L1" "A" (Some "A")]
  /\ Store.order (world (fst (replay Scenes.rankTies))) "L1" = ["A"; "B"; "C"].
Proof. vm_compute. repeat split. Qed.

(** ** The loop over the target lists *)

(** The loop stops at the first list whose processing fails: the error is
    returned as it is, the state is the one that list's processing left,
    and nothing is done for the lists after it. *)
Lemma Reorder_stops (W : Type) (B : Backend W) (G : GoRuntime)
    (pre post : list string) (t : string) (s s1 s2 : State W) (e : string) :
  ReorderTasksByPriority B G pre s = (s1, inr tt) ->
  reorderList B G t s1 = (s2, inl e) ->
  ReorderTasksByPriority B G (pre ++ t :: post)%list s = (s2, inl e).
Proof.
  revert s. induction pre as [|t0 pre IH]; intros s Hpre Ht.
  - simpl in Hpre. injection Hpre as <-.
    simpl. now rewrite (bind_stop _ _ _ Ht).
  - simpl in Hpre |- *.
    apply bind_ok in Hpre. destruct Hpre as (b & s0 & H0 & Hrest).
    rewrite (bind_step _ _ _ H0). now apply IH.
Qed.

Lemma GetTaskListByTitle_exact (W : Type) (B : Backend W) (t : string)
    (s s' : State W) (tl : TaskList) :
  GetTaskListByTitle B t s = (s', inr tl) -> TaskList_Title tl = t.
Proof.
  unfold GetTaskListByTitle. intro H.
  apply bind_ok in H. destruct H as (tls & s1 & _ & H).
  destruct (find _ tls) as [x|] eqn:F; [|discriminate].
  injection H as _ <-. apply find_some in F.
  now apply String.eqb_eq.
Qed.

(** C8, as amended.  A title is resolved to a list with exactly that
    title.  When the lists before a target title have been processed and
    the title cannot be resolved, ReorderTasksByPriority returns the
    error that names the title, in the state the failed look-up left: the
    lists processed before stay processed, nothing is done for that title
    nor for the titles after it. *)
Theorem C8_unresolved_title_aborts (W : Type) (B : Backend W)
    (G : GoRuntime) (pre post : list string) (t : string)
    (s s1 s2 : State W) (e : string) :
  ReorderTasksByPriority B G pre s = (s1, inr tt) ->
  GetTaskListByTitle B t s1 = (s2, inl e) ->
  ReorderTasksByPriority B G (pre ++ t :: post)%list s
  = (s2, inl ("error finding task list " ++ t ++ ": " ++ e))
  /\ forall (st st' : State W) (tl : TaskList),
       GetTaskListByTitle B t st = (st', inr tl) -> TaskList_Title tl = t.
Proof.
  intros Hpre Hget. split.
  - apply Reorder_stops with (s1 := s1); [exact Hpre|].
    unfold reorderList. unfold bind at 1. unfold wrapErr.
    now rewrite Hget.
  - intros st st' tl. apply GetTaskListByTitle_exact.
Qed.

Lemma C8_unresolved_title_aborts_witness :
  ReorderTasksByPriority Store.backend Demo.G
    ([] ++ "Backlog" :: ["In Progress"])%list
    (Store.start (Demo.storeNoBacklog ["rank-DE"]))
  = ({| world := Demo.storeNoBacklog ["rank-DE"];
        trace := [EvTasklistsList] |},
     inl ("error finding task list " ++ "Backlog" ++ ": "
          ++ "task list not found: Backlog"))
  /\ forall (st st' : State Store.t) (tl : TaskList),
       GetTaskListByTitle Store.backend "Backlog" st = (st', inr tl) ->
       TaskList_Title tl = "Backlog".
Proof.
  apply (@C8_unresolved_title_aborts _ Store.backend Demo.G []
           ["In Progress"] "Backlog"
           (Store.start (Demo.storeNoBacklog ["rank-DE"]))
           (Store.start (Demo.storeNoBacklog ["rank-DE"])));
    reflexivity.
Defined.

(** C8 as stated fails.  With no list titled Backlog, the run over
    Backlog and In Progress ends in the error for Backlog with no call
    made for In Progress, whose order stays D, E; run for In Progress
    alone, the same store and answer reorder it to E, D.  And the title
    test of the earlier variant accepts a title that differs in case. *)
Lemma C8_counterexample :
  let both :=
    ReorderTasksByPriority Store.backend Demo.G ["Backlog"; "In Progress"]
      (Store.start (Demo.storeNoBacklog ["rank-DE"])) in
  let alone :=
    ReorderTasksByPriority Store.backend Demo.G ["In Progress"]
      (Store.start (Demo.storeNoBacklog ["rank-DE"])) in
  snd both
  = inl "error finding task list Backlog: task list not found: Backlog"
  /\ trace (fst both) = [EvTasklistsList]
  /\ Store.order (world (fst both)) "L2" = ["D"; "E"]
  /\ snd alone = inr tt
  /\ Store.order (world (fst alone)) "L2" = ["E"; "D"]
  /\ VariantB.shouldProcessList Demo.G "BACKLOG" ["Backlog"; "In Progress"]
     = true.
Proof. vm_compute. repeat split. Qed.

(** ** Task identifiers of a ranking *)

Lemma movedIds_app a b : movedIds (a ++ b) = (movedIds a ++ movedIds b)%list.
Proof. unfold movedIds. apply flat_map_app. Qed.

Lemma movedIds_replayCalls l prev rs :
  movedIds (replayCalls l prev rs) = map TaskID rs.
Proof.
  revert prev. induction rs as [|p rs IH]; intro prev; simpl;
    [reflexivity|]. now rewrite IH.
Qed.

Lemma firstn_incl (A : Type) (k : nat) (l : list A) : incl (firstn k l) l.
Proof.
  revert l. induction k as [|k IH]; intros [|x l] z Hz; simpl in Hz;
    try contradiction.
  destruct Hz as [<-|H]; [now left | right; now apply IH].
Qed.





(** [getPriorityForTask] does not fail on a task without a record: its
    priority reads as 0. *)
Lemma getPriorityForTask_default (taskID : string)
    (priorities : list TaskPriority) :
  ~ In taskID (map TaskID priorities) ->
  getPriorityForTask taskID priorities = Float64.zero.
Proof.
  induction priorities as [|p ps IH]; simpl; [reflexivity|]. intro H.
  destruct (String.eqb_spec (TaskID p) taskID) as [E|E]; [tauto|].
  apply IH. tauto.
Qed.

(** ** A move that fails *)

(** C7.  The store holds the list Backlog with the tasks A, B and C, and
    the ranking names C, then X, which is no task of the list, then B.
    The second move fails in the store.  The run returns an error made of
    the identifier X and of the store's text; the third move is not
    issued and nothing is done for the next target list.  The same
    tasks and answer in a list with another title and identifier give the
    very same error: nothing in it tells the list. *)
Theorem C7_move_error_omits_list :
  let run :=
    ReorderTasksByPriority Store.backend Demo.G ["Backlog"; "In Progress"]
      (Store.start (Demo.store ["rank-ghost"; "rank-DE"])) in
  let renamed :=
    ReorderTasksByPriority Store.backend Demo.G ["Someday"]
      (Store.start (Demo.storeRenamed ["rank-ghost"])) in
  snd run = inl "error moving task X: unable to move task: Task not found"
  /\ filter isMove (trace (fst run))
     = [EvTasksMove "L1" "C" None; EvTasksMove "L1" "X" (Some "C")]
  /\ Store.order (world (fst run)) "L2" = ["D"; "E"]
  /\ snd renamed = snd run.
Proof. vm_compute. repeat split. Qed.

Lemma append_assoc (a b c : string) : (a ++ b) ++ c = a ++ b ++ c.
Proof. induction a as [|x a IH]; simpl; congruence. Qed.

Lemma occursIn_head (b c : string) : occursIn b (b ++ c).
Proof. now exists "", c. Qed.

Lemma occursIn_prefix (a b c : string) : occursIn b c -> occursIn b (a ++ c).
Proof.
  intros (l & r & ->). exists (a ++ l), r. now rewrite append_assoc.
Qed.

(** The earlier variant reports a failed move with the title of the
    list. *)
Lemma VariantB_moveRemaining_names_list (W : Type) (B : Backend W)
    (listID listTitle : string) (rest : list VariantB.taskWithPriority) :
  forall (previousTask : Task) (st st' : State W) (e : string),
    VariantB.moveRemaining B listID listTitle previousTask rest st
    = (st', inl e) ->
    occursIn listTitle e.
Proof.
  induction rest as [|cur rest IH]; intros previousTask st st' e H;
    cbn [VariantB.moveRemaining] in H; [discriminate|].
  apply bind_err in H. destruct H as [H|(x & s1 & _ & H)].
  - apply wrapErr_err in H. destruct H as (e0 & _ & ->).
    do 5 apply occursIn_prefix. apply occursIn_head.
  - apply bind_err in H. destruct H as [H|(y & s2 & _ & H)].
    + rewrite remote_run in H. discriminate.
    + now apply IH in H.
Qed.

Lemma VariantB_moveList_names_list (W : Type) (B : Backend W)
    (listID listTitle : string) (tws : list VariantB.taskWithPriority)
    (st st' : State W) (e : string) :
  VariantB.moveList B listID listTitle tws st = (st', inl e) ->
  occursIn listTitle e.
Proof.
  destruct tws as [|first rest]; cbn [VariantB.moveList];
    [discriminate|]. intro H.
  apply bind_err in H. destruct H as [H|(x & s1 & _ & H)].
  - apply wrapErr_err in H. destruct H as (e0 & _ & ->).
    do 3 apply occursIn_prefix. apply occursIn_head.
  - now apply VariantB_moveRemaining_names_list in H.
Qed.

(** ** The order of the moves *)

Lemma movedIds_firstn_replay k l prev rs :
  movedIds (firstn k (replayCalls l prev rs)) = firstn k (map TaskID rs).
Proof.
  revert k prev. induction rs as [|p rs IH]; intros [|k] prev; simpl;
    try reflexivity.
  now rewrite IH.
Qed.

(** The score the earlier variant reads for a task depends on the
    identifiers and scores of the records, and on nothing else of them. *)
Lemma getPriorityForTask_fields (taskID : string)
    (ps ps' : list TaskPriority) :
  map TaskID ps = map TaskID ps' ->
  map Priority ps = map Priority ps' ->
  getPriorityForTask taskID ps = getPriorityForTask taskID ps'.
Proof.
  revert ps'. induction ps as [|p ps IH]; intros [|p' ps'] Hid Hpr;
    try discriminate; [reflexivity|].
  simpl in Hid, Hpr. injection Hid as Hid Hids. injection Hpr as Hpr Hprs.
  simpl. rewrite Hid, Hpr. now rewrite (IH ps').
Qed.

(** C3, as amended.  In the prioritizer that replays the ranking, the
    records returned for a list are rearranged by [sort.Slice] under
    bytewise lexicographic comparison of the position strings before any
    move: the slice moved is a permutation of the returned one in which no
    record's position is lexicographically below that of an earlier
    record, and the tasks are moved in that order, up to the first move
    that fails.  On digit strings of one width that comparison is the
    comparison of the numbers they denote; so when every position is five
    digits, the records come in non-decreasing order of the ranks their
    positions denote.  The earlier variant orders the tasks of a list by
    score: which order it moves them in does not depend on the positions
    of the records. *)
Theorem C3_position_order (W : Type) (B : Backend W) (G : GoRuntime)
    (listTitle : string) (s s1 s2 s3 s' : State W) (taskList : TaskList)
    (tasks : list Task) (rs : list TaskPriority) (r : string + bool) :
  GoRuntimeLaws G ->
  GetTaskListByTitle B listTitle s = (s1, inr taskList) ->
  ListTasks B (TaskList_Id taskList) s1 = (s2, inr tasks) ->
  filter isTopLevel tasks <> [] ->
  AnalyzeAndPrioritizeTasks B G (filter isTopLevel tasks) s2 = (s3, inr rs) ->
  reorderList B G listTitle s = (s', r) ->
  let sorted := sort_Slice G lessByPosition rs in
  Permutation rs sorted
  /\ StronglySorted
       (fun a b => GoString.lt (NewPosition b) (NewPosition a) = false)
       sorted
  /\ (exists k,
         k <= List.length sorted
         /\ movedIds (trace s')
            = (movedIds (trace s3) ++ firstn k (map TaskID sorted))%list
         /\ (forall b, r = inr b -> k = List.length sorted))
  /\ (forall a b : string,
         len a = len b -> all_digits a = true -> all_digits b = true ->
         String.compare a b = N.compare (decimal_value a) (decimal_value b))
  /\ (Forall paddedRank rs ->
      StronglySorted
        (fun a b => (decimal_value (NewPosition a)
                     <= decimal_value (NewPosition b))%N)
        sorted)
  /\ (forall taskToListMap allTasks ps ps' listID,
         map TaskID ps = map TaskID ps' ->
         map Priority ps = map Priority ps' ->
         VariantB.byPriority G
           (VariantB.tasksByList taskToListMap allTasks ps listID)
         = VariantB.byPriority G
             (VariantB.tasksByList taskToListMap allTasks ps' listID)).
Proof.
  intros Laws Hget Hlist Htop Han Hrun sorted.
  assert (Hperm : Permutation rs sorted) by apply (sort_Slice_perm Laws).
  assert (Hsorted : sorted_by lessByPosition sorted)
    by apply (sort_Slice_sorted Laws), StringOrder.lessByPosition_swo.
  split; [exact Hperm|]. split; [exact Hsorted|].
  split; [|split; [exact StringOrder.decimal_compare|split]].
  - unfold reorderList in Hrun.
    rewrite (bind_step _ _ _ (proj2 (wrapErr_ok _ _ _ _ _) Hget)) in Hrun.
    rewrite (bind_step _ _ _ (proj2 (wrapErr_ok _ _ _ _ _) Hlist)) in Hrun.
    destruct (List.length (filter isTopLevel tasks) =? 0)%nat eqn:E.
    { apply Nat.eqb_eq in E.
      destruct (filter isTopLevel tasks); [contradiction | discriminate]. }
    rewrite (bind_step _ _ _ (proj2 (wrapErr_ok _ _ _ _ _) Han)) in Hrun.
    fold sorted in Hrun. unfold bind at 1 in Hrun.
    destruct (replayMoves B (TaskList_Id taskList) sorted "" s3)
      as [s4 [e|u]] eqn:Hrep; apply replayMoves_trace in Hrep;
      destruct Hrep as (k & Hk & Htr & Hr); exists k.
    + injection Hrun as <- <-.
      split; [exact Hk|]. split; [|discriminate].
      now rewrite Htr, movedIds_app, movedIds_firstn_replay.
    + unfold bind, Printf, ret in Hrun. injection Hrun as <- <-.
      split; [exact Hk|]. split; [|intros _ _; exact Hr].
      simpl trace. rewrite Htr, !movedIds_app, movedIds_firstn_replay.
      simpl. now rewrite app_nil_r.
  - intro Hpad. rewrite Forall_forall in Hpad.
    apply sorted_weaken with (2 := Hsorted).
    intros a b Ha Hb Hle.
    apply (Permutation_in _ (Permutation_sym Hperm)) in Ha, Hb.
    destruct (Hpad a Ha) as [La Da]. destruct (Hpad b Hb) as [Lb Db].
    unfold lessByPosition, GoString.lt, String.ltb in Hle.
    rewrite (StringOrder.decimal_compare (NewPosition b) (NewPosition a))
      in Hle by (auto; congruence).
    destruct (N.compare_spec (decimal_value (NewPosition b))
                (decimal_value (NewPosition a))); try discriminate; lia.
  - intros m allTasks ps ps' listID Hid Hpr.
    unfold VariantB.tasksByList. f_equal. apply map_ext. intro t.
    f_equal. now apply getPriorityForTask_fields.
Qed.

Lemma C3_position_order_witness :
  let run :=
    reorderList Store.backend Demo.G "Backlog"
      (Store.start (Demo.store ["rank-CAB"])) in
  let sorted := sort_Slice Demo.G lessByPosition Demo.rankCAB in
  map TaskID Demo.rankCAB = ["A"; "B"; "C"]
  /\ map TaskID sorted = ["C"; "A"; "B"]
  /\ (exists k,
         k <= List.length sorted
         /\ movedIds (trace (fst run)) = firstn k (map TaskID sorted)
         /\ (forall b, snd run = inr b -> k = List.length sorted))
  /\ StronglySorted
       (fun a b => (decimal_value (NewPosition a)
                    <= decimal_value (NewPosition b))%N)
       sorted
  /\ String.compare "00002" "00010"
     = N.compare (decimal_value "00002") (decimal_value "00010").
Proof.
  intros run sorted.
  destruct (@C3_position_order _ Store.backend Demo.G "Backlog"
              (Store.start (Demo.store ["rank-CAB"]))
              {| world := Demo.store ["rank-CAB"];
                 trace := [EvTasklistsList] |}
              {| world := Demo.store ["rank-CAB"];
                 trace := [EvTasklistsList; EvTasksList "L1"] |}
              {| world := Demo.store [];
                 trace := [EvTasklistsList; EvTasksList "L1";
                           EvGenerate
                             (RankingPrompt
                                [Demo.taskA; Demo.taskB; Demo.taskC])] |}
              (fst run) Demo.backlog
              [Demo.taskA; Demo.taskB; Demo.taskC] Demo.rankCAB (snd run)
              (tableRuntime_laws _ _))
    as (_ & _ & Hmoves & Hcmp & Hnum & _).
  - reflexivity.
  - reflexivity.
  - discriminate.
  - reflexivity.
  - apply surjective_pairing.
  - split; [reflexivity|]. split; [reflexivity|].
    split; [exact Hmoves|]. split.
    + apply Hnum. repeat constructor.
    + apply Hcmp; reflexivity.
Defined.

(** C3 as stated fails.  For the tasks A and B of one list and validated
    records that give A the position 00001 with the score 10 and B the
    position 00002 with the score 90, the order by position string is A,
    B; the earlier variant sorts them into the order B, A and moves B to
    the front first. *)
Lemma C3_counterexample :
  let batch := [Demo.taskA; Demo.taskB] in
  let sorted :=
    VariantB.byPriority Demo.G
      (VariantB.tasksByList (fun _ => "L1") batch Scenes.rankAgainst "L1") in
  validatePriorities batch Scenes.rankAgainst = inr Scenes.rankAgainst
  /\ map TaskID (sort_Slice Demo.G lessByPosition Scenes.rankAgainst)
     = ["A"; "B"]
  /\ map (fun x => Id (VariantB.task x)) sorted = ["B"; "A"]
  /\ filter isMove
       (trace (fst (VariantB.moveList Store.backend "L1" "Backlog" sorted
                      (Store.start (Demo.store [])))))
     = [EvTasksMove "L1" "B" None; EvTasksMove "L1" "A" (Some "B")].
Proof. vm_compute. repeat split. Qed.

End Claims.

(* ================================================================== *)
(** * Further properties of the code *)

Module Extras.
Import GoString GoStringFacts Float64 Float64Facts MonadFacts ValidationFacts.
Import Claims.

(** ** Validation and repair *)

Lemma repairAt_valid (i : nat) (p : TaskPriority) :
  validRecord p -> repairAt i p = p.
Proof.
  intros [Hr Hl]. unfold repairAt.
  unfold in_0_100 in Hr. apply andb_true_iff in Hr. destruct Hr as [H0 H1].
  rewrite (within_not_below _ H0), (within_not_above _ H1). simpl orb.
  cbv iota. rewrite Hl. reflexivity.
Qed.

Lemma repairFrom_valid (i : nat) (ps : list TaskPriority) :
  Forall validRecord ps -> repairFrom i ps = ps.
Proof.
  revert i. induction ps as [|p ps IH]; intros i H; simpl; [reflexivity|].
  inversion H; subst. now rewrite repairAt_valid, IH.
Qed.

Lemma repairFrom_makes_valid (ds : list TaskPriority) :
  Forall (fun p => is_nan (Priority p) = false) ds ->
  (N.of_nat (List.length ds) < 100000)%N ->
  Forall validRecord (repairFrom 0 ds).
Proof.
  intros Hnum Hsmall. rewrite Forall_forall in Hnum.
  apply Forall_forall. intros r Hr.
  apply In_nth_error in Hr. destruct Hr as [k Hk].
  rewrite repairFrom_nth in Hk.
  destruct (nth_error ds k) as [d|] eqn:Ed; [|discriminate].
  injection Hk as <-.
  assert (Hlt : k < List.length ds) by (apply nth_error_Some; congruence).
  split.
  - apply repairAt_in_range, Hnum. eapply nth_error_In; eauto.
  - destruct (repairAt_width (0 + k) d) as [E|(_ & _ & Hwide)]; [exact E|].
    exfalso.
    assert (len (itoa (N.of_nat (0 + k + 1))) <= 5)
      by (apply itoa_narrow; lia).
    lia.
Qed.

(** X1.  For a batch of fewer than 100000 tasks, a slice returned by
    AnalyzeAndPrioritizeTasks has one record per task, every score within
    [0,100] and every position five bytes long. *)
Theorem X1_small_batch_valid (W : Type) (B : Backend W) (G : GoRuntime)
    (tasks : list Task) (s s' : State W) (rs : list TaskPriority) :
  GoRuntimeLaws G ->
  (N.of_nat (List.length tasks) < 100000)%N ->
  AnalyzeAndPrioritizeTasks B G tasks s = (s', inr rs) ->
  List.length rs = List.length tasks /\ Forall validRecord rs.
Proof.
  intros Laws Hsmall H. apply Analyze_ok in H.
  destruct H as (text & ds & _ & Hd & Hlen & ->).
  split; [now rewrite repairFrom_length|].
  apply repairFrom_makes_valid; [|now rewrite Hlen].
  exact (Unmarshal_number Laws _ Hd).
Qed.

Lemma X1_small_batch_valid_witness :
  List.length (repairFrom 0 Demo.rankOff)
  = List.length [Demo.taskA; Demo.taskB; Demo.taskC]
  /\ Forall validRecord (repairFrom 0 Demo.rankOff).
Proof.
  apply (@X1_small_batch_valid _ Store.backend Demo.G
           [Demo.taskA; Demo.taskB; Demo.taskC]
           (Store.start (Demo.store ["rank-off"]))
           {| world := Demo.store [];
              trace := [EvGenerate
                          (RankingPrompt
                             [Demo.taskA; Demo.taskB; Demo.taskC])] |}
           (repairFrom 0 Demo.rankOff) (tableRuntime_laws _ _)).
  - reflexivity.
  - reflexivity.
Defined.

(** X2.  Repairing twice is repairing once: on fewer than 100000 records
    with numeric scores, the repair loop leaves its own output alone. *)
Theorem X2_repair_idempotent (ds : list TaskPriority) :
  Forall (fun p => is_nan (Priority p) = false) ds ->
  (N.of_nat (List.length ds) < 100000)%N ->
  repairFrom 0 (repairFrom 0 ds) = repairFrom 0 ds.
Proof.
  intros Hnum Hsmall. apply repairFrom_valid.
  now apply repairFrom_makes_valid.
Qed.

Lemma X2_repair_idempotent_witness :
  repairFrom 0 (repairFrom 0 Demo.rankOff) = repairFrom 0 Demo.rankOff.
Proof.
  apply X2_repair_idempotent.
  - repeat constructor.
  - reflexivity.
Defined.

(** X3.  An answer that needs no repair comes back as decoded: when the
    count matches the batch and every record has a score within [0,100]
    and a position of five bytes, validation returns the decoded slice
    itself, wherever the records sit in it. *)
Theorem X3_valid_answer_unchanged (tasks : list Task)
    (ds : list TaskPriority) :
  List.length ds = List.length tasks ->
  Forall validRecord ds ->
  validatePriorities tasks ds = inr ds.
Proof.
  intros Hlen Hv. unfold validatePriorities.
  rewrite Hlen, Nat.eqb_refl. simpl. now rewrite repairFrom_valid.
Qed.

Lemma X3_valid_answer_unchanged_witness :
  validatePriorities [Demo.taskA; Demo.taskB; Demo.taskC] Demo.rankCAB
  = inr Demo.rankCAB.
Proof.
  apply X3_valid_answer_unchanged.
  - reflexivity.
  - repeat constructor.
Defined.

(** ** The request and the response text *)

Lemma generateText_state (W : Type) (B : Backend W) (p : Prompt)
    (s : State W) :
  fst (generateText B p s)
  = {| world := fst (GenerateContent B p (world s));
       trace := (trace s ++ [EvGenerate p])%list |}.
Proof.
  unfold generateText, bind, wrapErr. rewrite remote_run.
  destruct (snd (GenerateContent B p (world s))) as [e|[|[|t ps] cs]];
    reflexivity.
Qed.

Lemma Analyze_state (W : Type) (B : Backend W) (G : GoRuntime)
    (tasks : list Task) (s : State W) :
  fst (AnalyzeAndPrioritizeTasks B G tasks s)
  = {| world := fst (GenerateContent B (RankingPrompt tasks) (world s));
       trace := (trace s ++ [EvGenerate (RankingPrompt tasks)])%list |}.
Proof.
  rewrite <- generateText_state.
  unfold AnalyzeAndPrioritizeTasks, bind.
  destruct (generateText B (RankingPrompt tasks) s) as [s1 [e|text]];
    [reflexivity|].
  destruct (Unmarshal_TaskPriority G (cleanResponse G text)) as [e|ds];
    [reflexivity|].
  unfold liftResult. now destruct (validatePriorities tasks ds).
Qed.

Lemma Suggest_state (W : Type) (B : Backend W) (G : GoRuntime)
    (tasks : list Task) (s : State W) :
  fst (SuggestSubtasks B G tasks s)
  = {| world := fst (GenerateContent B (SubtaskPrompt tasks) (world s));
       trace := (trace s ++ [EvGenerate (SubtaskPrompt tasks)])%list |}.
Proof.
  rewrite <- generateText_state.
  unfold SuggestSubtasks, bind.
  destruct (generateText B (SubtaskPrompt tasks) s) as [s1 [e|text]];
    [reflexivity|].
  destruct (Unmarshal_SubtaskSuggestion G (cleanResponse G text))
    as [e|ds]; [reflexivity|].
  unfold liftResult. now destruct (validateSuggestions tasks ds).
Qed.

(** X4.  Whatever the service answers and whether or not the answer is
    accepted, AnalyzeAndPrioritizeTasks and SuggestSubtasks each make
    exactly one request to the service and no call to the task store. *)
Theorem X4_one_request_no_store_call (W : Type) (B : Backend W)
    (G : GoRuntime) (tasks : list Task) (s : State W) :
  fst (AnalyzeAndPrioritizeTasks B G tasks s)
  = {| world := fst (GenerateContent B (RankingPrompt tasks) (world s));
       trace := (trace s ++ [EvGenerate (RankingPrompt tasks)])%list |}
  /\ fst (SuggestSubtasks B G tasks s)
     = {| world := fst (GenerateContent B (SubtaskPrompt tasks) (world s));
          trace := (trace s ++ [EvGenerate (SubtaskPrompt tasks)])%list |}.
Proof.
  split; [apply Analyze_state | apply Suggest_state].
Qed.

(** X5.  When the cleaned response text does not decode, the error of
    AnalyzeAndPrioritizeTasks carries both the decoder's message and the
    cleaned text that was given to the decoder. *)
Theorem X5_parse_error_keeps_text (W : Type) (B : Backend W)
    (G : GoRuntime) (tasks : list Task) (s s' : State W)
    (text err : string) :
  generateText B (RankingPrompt tasks) s = (s', inr text) ->
  Unmarshal_TaskPriority G (cleanResponse G text) = inl err ->
  exists e,
    AnalyzeAndPrioritizeTasks B G tasks s = (s', inl e)
    /\ occursIn err e
    /\ occursIn (cleanResponse G text) e.
Proof.
  intros Hg Hd. eexists. split.
  - unfold AnalyzeAndPrioritizeTasks. rewrite (bind_step _ _ _ Hg).
    cbv beta zeta. rewrite Hd. reflexivity.
  - split.
    + apply occursIn_prefix. apply occursIn_head.
    + do 4 apply occursIn_prefix.
      exists "", "". simpl. now rewrite append_empty_r.
Qed.

Lemma X5_parse_error_keeps_text_witness :
  exists e,
    AnalyzeAndPrioritizeTasks Store.backend Demo.G [Demo.taskA]
      (Store.start (Demo.store ["  ```json oops ```  "]))
    = ({| world := Demo.store [];
          trace := [EvGenerate (RankingPrompt [Demo.taskA])] |}, inl e)
    /\ occursIn "invalid character looking for beginning of value" e
    /\ occursIn "oops" e.
Proof.
  apply (@X5_parse_error_keeps_text _ Store.backend Demo.G [Demo.taskA]
           (Store.start (Demo.store ["  ```json oops ```  "]))
           {| world := Demo.store [];
              trace := [EvGenerate (RankingPrompt [Demo.taskA])] |}
           "  ```json oops ```  "
           "invalid character looking for beginning of value");
    reflexivity.
Defined.

(** *** Code fences *)

Lemma prefix_append (p s : string) : String.prefix p (p ++ s) = true.
Proof.
  induction p as [|c p IH]; simpl; [now destruct s|].
  destruct (Ascii.ascii_dec c c); [exact IH | congruence].
Qed.

Lemma substring_all (s : string) : String.substring 0 (len s) s = s.
Proof. unfold len. induction s as [|c s IH]; simpl; congruence. Qed.

Lemma substring_drop (p s : string) :
  String.substring (len p) (len s) (p ++ s) = s.
Proof.
  unfold len. induction p as [|c p IH]; simpl; [apply substring_all|].
  exact IH.
Qed.

Lemma substring_take (s p : string) :
  String.substring 0 (len s) (s ++ p) = s.
Proof.
  unfold len. induction s as [|c s IH]; simpl; [now destruct p|].
  now rewrite IH.
Qed.

Lemma TrimPrefix_append (p s : string) : TrimPrefix (p ++ s) p = s.
Proof.
  unfold TrimPrefix. rewrite prefix_append, len_append.
  replace (len p + len s - len p) with (len s) by lia.
  apply substring_drop.
Qed.

Lemma rev_append (a b : string) : rev (a ++ b) = rev b ++ rev a.
Proof.
  induction a as [|c a IH]; simpl; [now rewrite append_empty_r|].
  now rewrite IH, append_assoc.
Qed.

Lemma TrimSuffix_append (s p : string) : TrimSuffix (s ++ p) p = s.
Proof.
  unfold TrimSuffix. rewrite rev_append, prefix_append, len_append.
  replace (len s + len p - len p) with (len s) by lia.
  apply substring_take.
Qed.

(** X6.  A response that, once trimmed, is a block fenced by [```json]
    and [```] is cleaned to the trimmed inside of the block. *)
Theorem X6_json_fence_stripped (G : GoRuntime) (text inner : string) :
  TrimSpace G text = "```json" ++ inner ++ "```" ->
  String.prefix "```" (inner ++ "```") = false ->
  cleanResponse G text = TrimSpace G inner.
Proof.
  intros Ht Hin. unfold cleanResponse. rewrite Ht.
  rewrite (TrimPrefix_append "```json" (inner ++ "```")).
  unfold TrimPrefix at 1. rewrite Hin.
  now rewrite TrimSuffix_append.
Qed.

Lemma X6_json_fence_stripped_witness :
  cleanResponse Demo.G
    ("  ```json" ++ nl ++ "[1, 2]" ++ nl ++ "```" ++ nl)
  = "[1, 2]".
Proof.
  exact (@X6_json_fence_stripped Demo.G
           ("  ```json" ++ nl ++ "[1, 2]" ++ nl ++ "```" ++ nl)
           (nl ++ "[1, 2]" ++ nl) eq_refl eq_refl).
Defined.

Lemma prefix_shorter (a b s : string) :
  String.prefix (a ++ b) s = true -> String.prefix a s = true.
Proof.
  revert s. induction a as [|c a IH]; intros [|d s] H; simpl in *;
    try reflexivity; try discriminate.
  destruct (Ascii.ascii_dec c d); [now apply IH | discriminate].
Qed.

(** X7.  A response that, once trimmed, neither starts nor ends with a
    fence is cleaned to its trimmed text, trimmed once more. *)
Theorem X7_unfenced_text_kept (G : GoRuntime) (text : string) :
  String.prefix "```" (TrimSpace G text) = false ->
  String.prefix "```" (rev (TrimSpace G text)) = false ->
  cleanResponse G text = TrimSpace G (TrimSpace G text).
Proof.
  intros Hp Hs. unfold cleanResponse.
  assert (Hj : String.prefix "```json" (TrimSpace G text) = false).
  { destruct (String.prefix "```json" (TrimSpace G text)) eqn:E;
      [|reflexivity].
    apply (prefix_shorter "```" "json") in E. congruence. }
  unfold TrimPrefix. rewrite Hj, Hp.
  unfold TrimSuffix. change (rev "```") with "```". now rewrite Hs.
Qed.

Lemma X7_unfenced_text_kept_witness :
  cleanResponse Demo.G (" [1, 2]" ++ nl) = "[1, 2]".
Proof.
  exact (@X7_unfenced_text_kept Demo.G (" [1, 2]" ++ nl) eq_refl eq_refl).
Defined.

(** ** Creating subtasks *)

Lemma insertSubtasks_run (W : Type) (B : Backend W) taskListId s p titles :
  forall (st st' : State W) (r : string + unit),
    insertSubtasks B taskListId s p titles st = (st', r) ->
    match r with
    | inr _ =>
        trace st' = (trace st ++ insertEvents taskListId s p titles)%list
    | inl e =>
        exists done title later e0,
          titles = (done ++ title :: later)%list
          /\ e = "failed to create subtask '" ++ title
                 ++ "' for parent task " ++ ParentTaskID s ++ ": " ++ e0
          /\ trace st'
             = (trace st
                ++ insertEvents taskListId s p (done ++ [title]))%list
    end.
Proof.
  induction titles as [|title titles IH]; intros st st' r H; simpl in H.
  - injection H as <- <-. simpl. now rewrite app_nil_r.
  - unfold bind, wrapErr in H. rewrite remote_run in H.
    destruct (snd (Tasks_Insert B taskListId (newSubtask s p title)
                     (ParentTaskID s) (world st))) as [e0|x] eqn:E.
    + injection H as <- <-. exists [], title, titles, e0.
      repeat split.
    + apply IH in H. simpl trace in H. destruct r as [e|u].
      * destruct H as (done & t & later & e0 & -> & -> & Htr).
        exists (title :: done), t, later, e0. repeat split.
        rewrite Htr. simpl. now rewrite <- app_assoc.
      * rewrite H. simpl. now rewrite <- app_assoc.
Qed.

(** X8.  CreateSubtasks stops at the first call that fails.  The
    suggestions before the failing one were gone through in full; for the
    failing one, either the fetch of its parent failed and nothing was
    inserted for it, or the insert of one of its titles failed after the
    titles before it had been inserted.  Nothing is attempted for the
    titles and the suggestions that come after, and the error names the
    parent, and the title when an insert failed. *)
Theorem X8_create_stops_at_first_failure (W : Type) (B : Backend W)
    (taskListId : string) (suggestions : list SubtaskSuggestion)
    (st st' : State W) (e : string) :
  CreateSubtasks B taskListId suggestions st = (st', inl e) ->
  exists processed s rest st1,
    suggestions = (processed ++ s :: rest)%list
    /\ CreateSubtasks B taskListId processed st = (st1, inr tt)
    /\ ((exists e0,
            e = "failed to get parent task " ++ ParentTaskID s ++ ": " ++ e0
            /\ trace st'
               = (trace st1
                  ++ [EvTasksGet taskListId (ParentTaskID s) (inl e0)])%list)
        \/ (exists p done title later e0,
               Subtasks s = (done ++ title :: later)%list
               /\ e = "failed to create subtask '" ++ title
                      ++ "' for parent task " ++ ParentTaskID s ++ ": " ++ e0
               /\ trace st'
                  = (trace st1
                     ++ EvTasksGet taskListId (ParentTaskID s) (inr p)
                        :: insertEvents taskListId s p (done ++ [title]))%list)).
Proof.
  revert st. induction suggestions as [|s ss IH]; intros st H; simpl in H;
    [discriminate|].
  apply bind_err in H. destruct H as [H|(p & s1 & Hget & H)].
  - apply wrapErr_err in H. destruct H as (e0 & H & ->).
    rewrite remote_run in H. injection H as <- He0.
    exists [], s, ss, st. split; [reflexivity|]. split; [reflexivity|].
    left. exists e0. split; [reflexivity|]. simpl. now rewrite He0.
  - pose proof Hget as Hget0.
    apply wrapErr_ok in Hget. rewrite remote_run in Hget.
    injection Hget as <- Hp.
    apply bind_err in H. destruct H as [H|([] & s2 & Hins & H)].
    + apply insertSubtasks_run in H.
      destruct H as (done & title & later & e0 & Hs & -> & Htr).
      exists [], s, ss, st. split; [reflexivity|]. split; [reflexivity|].
      right. exists p, done, title, later, e0.
      split; [exact Hs|]. split; [reflexivity|].
      rewrite Htr. simpl. rewrite Hp. now rewrite <- app_assoc.
    + destruct (IH _ H) as (processed & s' & rest & st1 & -> & Hproc & Hcase).
      exists (s :: processed), s', rest, st1.
      split; [reflexivity|]. split; [|exact Hcase].
      simpl. rewrite (bind_step _ _ _ Hget0), (bind_step _ _ _ Hins).
      exact Hproc.
Qed.

Lemma X8_create_stops_at_first_failure_witness :
  exists processed s rest st1,
    [Demo.suggestion "A" ["Research"]; Demo.suggestion "Z" ["Call"];
     Demo.suggestion "B" ["Plan"]]
    = (processed ++ s :: rest)%list
    /\ CreateSubtasks Store.backend "L1" processed
         (Store.start (Demo.store [])) = (st1, inr tt)
    /\ ((exists e0,
            "failed to get parent task Z: Task not found"
            = "failed to get parent task " ++ ParentTaskID s ++ ": " ++ e0
            /\ trace
                 (fst (CreateSubtasks Store.backend "L1"
                         [Demo.suggestion "A" ["Research"];
                          Demo.suggestion "Z" ["Call"];
                          Demo.suggestion "B" ["Plan"]]
                         (Store.start (Demo.store []))))
               = (trace st1
                  ++ [EvTasksGet "L1" (ParentTaskID s) (inl e0)])%list)
        \/ (exists p done title later e0,
               Subtasks s = (done ++ title :: later)%list
               /\ "failed to get parent task Z: Task not found"
                  = "failed to create subtask '" ++ title
                    ++ "' for parent task " ++ ParentTaskID s ++ ": " ++ e0
               /\ trace
                    (fst (CreateSubtasks Store.backend "L1"
                            [Demo.suggestion "A" ["Research"];
                             Demo.suggestion "Z" ["Call"];
                             Demo.suggestion "B" ["Plan"]]
                            (Store.start (Demo.store []))))
                  = (trace st1
                     ++ EvTasksGet "L1" (ParentTaskID s) (inr p)
                        :: insertEvents "L1" s p (done ++ [title]))%list)).
Proof.
  apply (@X8_create_stops_at_first_failure _ Store.backend "L1"
           [Demo.suggestion "A" ["Research"]; Demo.suggestion "Z" ["Call"];
            Demo.suggestion "B" ["Plan"]]
           (Store.start (Demo.store []))).
  vm_compute. reflexivity.
Defined.

Lemma createEvent_more taskListId s ss ev :
  createEvent taskListId ss ev -> createEvent taskListId (s :: ss) ev.
Proof. intros (x & Hx & H). exists x. split; [now right | exact H]. Qed.

Lemma insertEvents_created taskListId s p titles ss :
  In s ss -> incl titles (Subtasks s) ->
  Forall (createEvent taskListId ss) (insertEvents taskListId s p titles).
Proof.
  intros Hs Hin. apply Forall_forall. intros ev Hev.
  unfold insertEvents in Hev. apply in_map_iff in Hev.
  destruct Hev as (title & <- & Ht).
  exists s. split; [exact Hs|]. right. eexists. split; [reflexivity|].
  rewrite newSubtask_due. simpl. split; [reflexivity | now apply Hin].
Qed.

(** X9.  Whatever the store answers, the only calls CreateSubtasks makes
    are fetches of the suggestions' parents and inserts, all in the given
    list; every insert names a suggestion's parent both in the task body
    and as the call's parameter and carries one of that suggestion's
    titles.  It never moves a task and never calls the service. *)
Theorem X9_create_only_fetches_and_inserts (W : Type) (B : Backend W)
    (taskListId : string) (suggestions : list SubtaskSuggestion)
    (st : State W) :
  exists evs,
    trace (fst (CreateSubtasks B taskListId suggestions st))
    = (trace st ++ evs)%list
    /\ Forall (createEvent taskListId suggestions) evs.
Proof.
  revert st. induction suggestions as [|s ss IH]; intro st; simpl.
  - exists []. now rewrite app_nil_r.
  - unfold bind at 1. unfold wrapErr. rewrite remote_run.
    destruct (snd (Tasks_Get B taskListId (ParentTaskID s) (world st)))
      as [e0|p] eqn:Eg.
    + simpl. eexists. split; [reflexivity|].
      constructor; [|constructor].
      exists s. split; [now left|]. left. now eexists.
    + unfold bind.
      destruct (insertSubtasks B taskListId s p (Subtasks s) _)
        as [s2 r] eqn:Ei.
      pose proof (insertSubtasks_run _ _ _ _ _ _ Ei) as Hi.
      simpl trace in Hi.
      assert (Hget : createEvent taskListId (s :: ss)
                       (EvTasksGet taskListId (ParentTaskID s) (inr p))).
      { exists s. split; [now left|]. left. now eexists. }
      destruct r as [e|[]].
      * destruct Hi as (done & title & later & e0 & Hs & _ & Htr).
        simpl. eexists. split; [rewrite Htr, <- app_assoc; reflexivity|].
        simpl. constructor; [exact Hget|].
        apply insertEvents_created; [now left|].
        rewrite Hs. intros t Ht. apply in_app_or in Ht.
        apply in_or_app. destruct Ht as [Ht|[<-|[]]];
          [now left | right; now left].
      * destruct (IH s2) as (evs & Htr & Hall).
        eexists. split.
        { rewrite Htr, Hi, <- !app_assoc. reflexivity. }
        simpl. constructor; [exact Hget|].
        apply Forall_app. split.
        { apply insertEvents_created; [now left | apply incl_refl]. }
        { eapply Forall_impl; [|exact Hall].
          intro ev. apply createEvent_more. }
Qed.

(** X10.  An error of AnalyzeAndCreateSubtasks tells its step: it starts
    with "failed to suggest subtasks: ", and then the only call made was
    the request to the service, the store being left untouched, or it
    starts with "failed to create subtasks: ". *)
Theorem X10_subtask_errors_tell_the_step (W : Type) (B : Backend W)
    (G : GoRuntime) (taskListId : string) (tasks : list Task)
    (s s' : State W) (e : string) :
  AnalyzeAndCreateSubtasks B G taskListId tasks s = (s', inl e) ->
  (exists e0,
      e = "failed to suggest subtasks: " ++ e0
      /\ s' = {| world := fst (GenerateContent B (SubtaskPrompt tasks)
                                 (world s));
                 trace := (trace s ++ [EvGenerate (SubtaskPrompt tasks)])%list
              |})
  \/ (exists e0, e = "failed to create subtasks: " ++ e0).
Proof.
  unfold AnalyzeAndCreateSubtasks. intro H.
  apply bind_err in H. destruct H as [H|(ss & s1 & _ & H)].
  - apply wrapErr_err in H. destruct H as (e0 & H & ->).
    left. exists e0. split; [reflexivity|].
    pose proof (Suggest_state B G tasks s) as Hst.
    rewrite H in Hst. exact Hst.
  - apply wrapErr_err in H. destruct H as (e0 & _ & ->).
    right. now exists e0.
Qed.

Lemma X10_subtask_errors_tell_the_step_witness :
  let e := "failed to suggest subtasks: "
           ++ "received incorrect number of suggestions: got 3, want 2" in
  (exists e0,
      e = "failed to suggest subtasks: " ++ e0
      /\ {| world := Demo.store [];
            trace := [EvGenerate (SubtaskPrompt Demo.fiveTasks)] |}
         = {| world := fst (GenerateContent Store.backend
                              (SubtaskPrompt Demo.fiveTasks)
                              (world (Store.start
                                        (Demo.store ["suggest-3"]))));
              trace := (trace (Store.start (Demo.store ["suggest-3"]))
                        ++ [EvGenerate (SubtaskPrompt Demo.fiveTasks)])%list
            |})
  \/ (exists e0, e = "failed to create subtasks: " ++ e0).
Proof.
  intro e.
  apply (@X10_subtask_errors_tell_the_step _ Store.backend Demo.G "L1"
           Demo.fiveTasks (Store.start (Demo.store ["suggest-3"]))).
  reflexivity.
Defined.

(** ** The counts of the main program *)

Lemma countTasks_spec (tasks rest : list Task) :
  forall a b : nat,
    countTasks tasks rest a b
    = (a + List.length (filter isTopLevel rest), b + parentsIn tasks rest).
Proof.
  unfold parentsIn.
  induction rest as [|task rest IH]; intros a b; cbn [countTasks filter].
  - simpl. now rewrite !Nat.add_0_r.
  - change (isTopLevel task) with (Parent task =? "").
    destruct (Parent task =? ""); cbn [andb].
    + rewrite IH.
      destruct (existsb (fun t => Parent t =? Id task) tasks);
        cbn [List.length]; f_equal; lia.
    + apply IH.
Qed.

Lemma parentsIn_le (tasks rest : list Task) :
  parentsIn tasks rest <= List.length (filter isTopLevel rest).
Proof.
  unfold parentsIn.
  induction rest as [|t rest IH]; cbn [filter]; [simpl; lia|].
  destruct (isTopLevel t); cbn [andb]; [|exact IH].
  destruct (existsb _ tasks); cbn [List.length]; lia.
Qed.

(** X11.  The two counts [main] prints for a list are the number of tasks
    with an empty parent and the number of those that some task of the
    list names as parent; the second never exceeds the first, so the
    difference printed as the number of tasks to break down is not
    negative.  The number of suggestions SuggestSubtasks accepts for the
    list is the first count, not that difference. *)
Theorem X11_counts_of_main (tasks : list Task) :
  fst (countTasks tasks tasks 0 0) = List.length (filter isTopLevel tasks)
  /\ snd (countTasks tasks tasks 0 0) = parentsIn tasks tasks
  /\ snd (countTasks tasks tasks 0 0) <= fst (countTasks tasks tasks 0 0)
  /\ forall suggestions,
       validateSuggestions tasks suggestions = inr suggestions
       <-> List.length suggestions = fst (countTasks tasks tasks 0 0).
Proof.
  rewrite countTasks_spec. simpl fst. simpl snd.
  split; [reflexivity|]. split; [reflexivity|]. split.
  - apply parentsIn_le.
  - intro ss. unfold validateSuggestions.
    destruct (Nat.eqb_spec (List.length ss)
                (List.length (filter isTopLevel tasks))) as [E|E]; simpl.
    + split; auto.
    + split; [discriminate | contradiction].
Qed.

(** ** Title tests *)

Lemma contains_In (slice : list string) (item : string) :
  contains slice item = true <-> In item slice.
Proof.
  induction slice as [|x slice IH]; simpl; [split; [discriminate|tauto]|].
  destruct (String.eqb_spec x item) as [E|E].
  - split; auto.
  - rewrite IH. split; [now right | intros [H|H]; [congruence | exact H]].
Qed.

Lemma contains_app (a b : list string) (item : string) :
  contains (a ++ b) item = contains a item || contains b item.
Proof.
  induction a as [|x a IH]; simpl; [reflexivity|].
  now destruct (x =? item).
Qed.

(** X13.  [contains] is exact membership: it accepts a title if and only
    if the title is one of the slice, byte for byte; so it accepts a
    title for two slices put together exactly when it does for one of
    them. *)
Theorem X13_contains_is_membership (slice more : list string)
    (item : string) :
  (contains slice item = true <-> In item slice)
  /\ contains (slice ++ more) item = contains slice item || contains more item.
Proof.
  split; [apply contains_In | apply contains_app].
Qed.

(** X14.  [shouldProcessList] accepts a title exactly when some target
    has the same lower-case form as the title, whatever [strings.ToLower]
    makes of a title: so two titles with the same lower-case form get the
    same answer, a title that [contains] accepts is accepted, and no title
    is accepted for an empty set of targets. *)
Theorem X14_title_test_ignores_case (G : GoRuntime) (listTitle : string)
    (targetLists : list string) :
  (VariantB.shouldProcessList G listTitle targetLists = true
   <-> exists target,
         In target targetLists /\ ToLower G target = ToLower G listTitle)
  /\ (forall other,
         ToLower G other = ToLower G listTitle ->
         VariantB.shouldProcessList G other targetLists
         = VariantB.shouldProcessList G listTitle targetLists)
  /\ (contains targetLists listTitle = true ->
      VariantB.shouldProcessList G listTitle targetLists = true)
  /\ VariantB.shouldProcessList G listTitle [] = false.
Proof.
  unfold VariantB.shouldProcessList.
  split; [|split; [|split; [|reflexivity]]].
  - rewrite existsb_exists. split; intros (t & Ht & E); exists t;
      (split; [exact Ht|]); now apply String.eqb_eq.
  - intros other E. now rewrite E.
  - intro H. apply contains_In in H.
    apply existsb_exists. exists listTitle.
    split; [exact H | apply String.eqb_refl].
Qed.

(** ** Looking up a priority *)

(** X15.  [getPriorityForTask] answers with the score of the first record
    that carries the identifier, whatever records follow it, and with 0
    when no record carries it. *)
Theorem X15_first_record_wins (taskID : string)
    (before after : list TaskPriority) (p : TaskPriority) :
  ~ In taskID (map TaskID before) ->
  (TaskID p = taskID ->
   getPriorityForTask taskID (before ++ p :: after)%list = Priority p)
  /\ getPriorityForTask taskID before = Float64.zero.
Proof.
  intro Hb. split.
  - intro Hp. induction before as [|q before IH]; simpl.
    + rewrite Hp, String.eqb_refl. reflexivity.
    + simpl in Hb.
      destruct (String.eqb_spec (TaskID q) taskID) as [E|E]; [tauto|].
      apply IH. tauto.
  - induction before as [|q before IH]; simpl; [reflexivity|].
    simpl in Hb.
    destruct (String.eqb_spec (TaskID q) taskID) as [E|E]; [tauto|].
    apply IH. tauto.
Qed.

Lemma X15_first_record_wins_witness :
  (TaskID (Demo.record "A" 10 "00001") = "A" ->
   getPriorityForTask "A"
     ([Demo.record "B" 30 "00003"]
      ++ Demo.record "A" 10 "00001" :: [Demo.record "A" 20 "00002"])%list
   = Priority (Demo.record "A" 10 "00001"))
  /\ getPriorityForTask "A" [Demo.record "B" 30 "00003"] = Float64.zero.
Proof.
  apply X15_first_record_wins. simpl. intuition discriminate.
Defined.

(** ** The move loops *)

(** X16.  The replay loop issues its move calls in the order of the
    records and stops at the first the store refuses: on success every
    call was issued; on failure the records split into those moved, the
    one refused and those never tried, and the error is made of the
    refused record's identifier and of the store's error text. *)
Theorem X16_replay_stops_at_first_refusal (W : Type) (B : Backend W)
    (l : string) (rs : list TaskPriority) (prev : string)
    (st st' : State W) (r : string + unit) :
  replayMoves B l rs prev st = (st', r) ->
  match r with
  | inr _ => trace st' = (trace st ++ replayCalls l prev rs)%list
  | inl e =>
      exists moved p untried apiError,
        rs = (moved ++ p :: untried)%list
        /\ trace st' = (trace st ++ replayCalls l prev (moved ++ [p]))%list
        /\ e = "error moving task " ++ TaskID p ++ ": unable to move task: "
               ++ apiError
  end.
Proof.
  revert prev st. induction rs as [|p rs IH]; intros prev st H; simpl in H.
  - injection H as <- <-. simpl. now rewrite app_nil_r.
  - unfold bind, wrapErr in H. rewrite MoveTask_run in H.
    destruct (snd (Tasks_Move B l (TaskID p) (previousOf prev) (world st)))
      as [e0|x] eqn:E.
    + injection H as <- <-. exists [], p, rs, e0. repeat split.
    + apply IH in H. simpl trace in H. destruct r as [e|u].
      * destruct H as (moved & q & untried & apiError & -> & Htr & ->).
        exists (p :: moved), q, untried, apiError. repeat split.
        rewrite Htr. simpl. now rewrite <- app_assoc.
      * rewrite H. simpl. now rewrite <- app_assoc.
Qed.

Lemma X16_replay_stops_at_first_refusal_witness :
  exists moved p untried apiError,
    Demo.rankGhost = (moved ++ p :: untried)%list
    /\ [EvTasksMove "L1" "C" None; EvTasksMove "L1" "X" (Some "C")]
       = ([] ++ replayCalls "L1" "" (moved ++ [p]))%list
    /\ "error moving task X: unable to move task: Task not found"
       = "error moving task " ++ TaskID p ++ ": unable to move task: "
         ++ apiError.
Proof.
  exact (@X16_replay_stops_at_first_refusal _ Store.backend "L1"
           Demo.rankGhost "" (Store.start (Demo.store []))
           {| world := {| Store.lists :=
                            [(Demo.backlog,
                              [Demo.taskC; Demo.taskA; Demo.taskB]);
                             (Demo.inProgress, [Demo.taskD; Demo.taskE])];
                          Store.replies := []; Store.fresh := 0 |};
              trace := [EvTasksMove "L1" "C" None;
                        EvTasksMove "L1" "X" (Some "C")] |}
           (inl "error moving task X: unable to move task: Task not found")
           eq_refl).
Defined.

(** X17.  The loop over the target lists is sequential and stops for
    good at the first list that fails: the run over some titles followed
    by others is the run over the first ones and, if that succeeded, the
    run over the others from the state reached; if it failed, its error
    and state are the result, the others not being looked at. *)
Theorem X17_reorder_is_sequential (W : Type) (B : Backend W)
    (G : GoRuntime) (first others : list string) (s : State W) :
  ReorderTasksByPriority B G (first ++ others)%list s
  = match ReorderTasksByPriority B G first s with
    | (s1, inr _) => ReorderTasksByPriority B G others s1
    | (s1, inl e) => (s1, inl e)
    end.
Proof.
  revert s. induction first as [|t first IH]; intro s; simpl;
    [reflexivity|].
  unfold bind. destruct (reorderList B G t s) as [s1 [e|b]];
    [reflexivity|]. apply IH.
Qed.

(** ** One list of the prioritizer *)

(** X18.  A list that has no task with an empty parent, an empty list
    included, is skipped: once its tasks are fetched, a line is printed
    and the list counts as done, with no request to the service and no
    move. *)
Theorem X18_list_without_top_level_is_skipped (W : Type) (B : Backend W)
    (G : GoRuntime) (listTitle : string) (s s1 s2 : State W)
    (taskList : TaskList) (tasks : list Task) :
  GetTaskListByTitle B listTitle s = (s1, inr taskList) ->
  ListTasks B (TaskList_Id taskList) s1 = (s2, inr tasks) ->
  filter isTopLevel tasks = [] ->
  reorderList B G listTitle s
  = ({| world := world s2;
        trace := (trace s2
                  ++ [EvPrint ("No top-level tasks found in list: "
                               ++ listTitle ++ nl)])%list |},
     inr false).
Proof.
  intros Hget Hlist Hnone. unfold reorderList.
  assert (Hget' : forall f, wrapErr f (GetTaskListByTitle B listTitle) s
                            = (s1, inr taskList))
    by (intro f; now apply wrapErr_ok).
  assert (Hlist' : forall f, wrapErr f (ListTasks B (TaskList_Id taskList)) s1
                             = (s2, inr tasks))
    by (intro f; now apply wrapErr_ok).
  rewrite (bind_step _ _ _ (Hget' _)), (bind_step _ _ _ (Hlist' _)).
  rewrite Hnone. reflexivity.
Qed.

Lemma X18_list_without_top_level_is_skipped_witness :
  reorderList Store.backend Demo.G "Backlog"
    (Store.start (Scenes.onlyChildren ["rank-CAB"]))
  = ({| world := Scenes.onlyChildren ["rank-CAB"];
        trace := ([EvTasklistsList; EvTasksList "L1"]
                  ++ [EvPrint ("No top-level tasks found in list: "
                               ++ "Backlog" ++ nl)])%list |},
     inr false).
Proof.
  apply (@X18_list_without_top_level_is_skipped _ Store.backend Demo.G
           "Backlog" (Store.start (Scenes.onlyChildren ["rank-CAB"]))
           {| world := Scenes.onlyChildren ["rank-CAB"];
              trace := [EvTasklistsList] |}
           {| world := Scenes.onlyChildren ["rank-CAB"];
              trace := [EvTasklistsList; EvTasksList "L1"] |}
           Demo.backlog
           [Demo.child "A1" "Outline" "A"; Demo.child "A2" "Figures" "A"]);
    reflexivity.
Defined.

Lemma replayMoves_ok_trace (W : Type) (B : Backend W) (l : string)
    (rs : list TaskPriority) :
  forall (prev : string) (st st' : State W) (u : unit),
    replayMoves B l rs prev st = (st', inr u) ->
    trace st' = (trace st ++ replayCalls l prev rs)%list.
Proof.
  intros prev st st' u H. apply replayMoves_trace in H.
  destruct H as (k & _ & Htr & ->).
  rewrite firstn_all2 in Htr; [exact Htr|].
  clear. revert prev. induction rs; intro prev; simpl; [lia|].
  specialize (IHrs (TaskID a)). lia.
Qed.

(** X19.  When a list is reordered, the one request made to the service
    carried the list's tasks with an empty parent and no other task, at
    least one of them, and returned as many records; the moves that
    followed are the replay of those records in the order [sort.Slice]
    puts them in, which is sorted by position string, each on the list
    that was resolved, and the line printed last counts them. *)
Theorem X19_reordered_list_trace (W : Type) (B : Backend W)
    (G : GoRuntime) (listTitle : string) (s s' : State W) :
  GoRuntimeLaws G ->
  reorderList B G listTitle s = (s', inr true) ->
  exists s1 s2 s3 taskList tasks rs,
    GetTaskListByTitle B listTitle s = (s1, inr taskList)
    /\ ListTasks B (TaskList_Id taskList) s1 = (s2, inr tasks)
    /\ filter isTopLevel tasks <> []
    /\ AnalyzeAndPrioritizeTasks B G (filter isTopLevel tasks) s2
       = (s3, inr rs)
    /\ List.length rs = List.length (filter isTopLevel tasks)
    /\ Permutation rs (sort_Slice G lessByPosition rs)
    /\ sorted_by lessByPosition (sort_Slice G lessByPosition rs)
    /\ trace s'
       = (trace s2
          ++ EvGenerate (RankingPrompt (filter isTopLevel tasks))
             :: replayCalls (TaskList_Id taskList) ""
                  (sort_Slice G lessByPosition rs)
          ++ [EvPrint ("Successfully prioritized "
                       ++ fmt_d (List.length (filter isTopLevel tasks))
                       ++ " tasks in list: " ++ listTitle ++ nl)])%list.
Proof.
  intros Laws H. unfold reorderList in H.
  apply bind_ok in H. destruct H as (tl & s1 & Hget & H).
  apply wrapErr_ok in Hget.
  apply bind_ok in H. destruct H as (tasks & s2 & Hlist & H).
  apply wrapErr_ok in Hlist.
  destruct (List.length (filter isTopLevel tasks) =? 0)%nat eqn:E.
  { apply bind_ok in H. destruct H as (u & s3 & _ & H). discriminate. }
  apply bind_ok in H. destruct H as (rs & s3 & Han & H).
  apply wrapErr_ok in Han.
  apply bind_ok in H. destruct H as (u & s4 & Hrep & H).
  apply bind_ok in H. destruct H as (u' & s5 & Hpr & H).
  injection H as <-.
  pose proof (Analyze_state B G (filter isTopLevel tasks) s2) as Hst.
  rewrite Han in Hst. simpl fst in Hst.
  pose proof Han as Hrs.
  apply Analyze_ok in Hrs. destruct Hrs as (text & ds & _ & _ & Hlen & Hrs).
  assert (Hcount : List.length rs = List.length (filter isTopLevel tasks))
    by (rewrite Hrs; now rewrite repairFrom_length).
  assert (Hranked : List.length (sort_Slice G lessByPosition rs)
                    = List.length (filter isTopLevel tasks)).
  { now rewrite <- (Permutation_length (sort_Slice_perm Laws _ _)). }
  apply replayMoves_ok_trace in Hrep.
  exists s1, s2, s3, tl, tasks, rs.
  split; [exact Hget|]. split; [exact Hlist|].
  split; [intro X; rewrite X in E; discriminate|].
  split; [exact Han|]. split; [exact Hcount|].
  split; [apply (sort_Slice_perm Laws)|].
  split; [apply (sort_Slice_sorted Laws), StringOrder.lessByPosition_swo|].
  unfold Printf in Hpr. injection Hpr as <-. simpl trace.
  rewrite Hrep, Hst. simpl trace. rewrite Hranked.
  now rewrite <- !app_assoc.
Qed.

Lemma X19_reordered_list_trace_witness :
  let run :=
    reorderList Store.backend Demo.G "Backlog"
      (Store.start (Scenes.withChild ["rank-CAB"])) in
  exists s1 s2 s3 taskList tasks rs,
    GetTaskListByTitle Store.backend "Backlog"
      (Store.start (Scenes.withChild ["rank-CAB"])) = (s1, inr taskList)
    /\ ListTasks Store.backend (TaskList_Id taskList) s1 = (s2, inr tasks)
    /\ filter isTopLevel tasks <> []
    /\ AnalyzeAndPrioritizeTasks Store.backend Demo.G
         (filter isTopLevel tasks) s2
       = (s3, inr rs)
    /\ List.length rs = List.length (filter isTopLevel tasks)
    /\ Permutation rs (sort_Slice Demo.G lessByPosition rs)
    /\ sorted_by lessByPosition (sort_Slice Demo.G lessByPosition rs)
    /\ trace (fst run)
       = (trace s2
          ++ EvGenerate (RankingPrompt (filter isTopLevel tasks))
             :: replayCalls (TaskList_Id taskList) ""
                  (sort_Slice Demo.G lessByPosition rs)
          ++ [EvPrint ("Successfully prioritized "
                       ++ fmt_d (List.length (filter isTopLevel tasks))
                       ++ " tasks in list: " ++ "Backlog" ++ nl)])%list.
Proof.
  intro run.
  apply (@X19_reordered_list_trace _ Store.backend Demo.G "Backlog"
           (Store.start (Scenes.withChild ["rank-CAB"])) (fst run)
           (tableRuntime_laws _ _)).
  vm_compute. reflexivity.
Defined.

(** ** The move loop of the earlier variant *)

Lemma moveRemaining_run (W : Type) (B : Backend W) (listID listTitle : string)
    (rest : list VariantB.taskWithPriority) :
  forall (previousTask : Task) (st st' : State W) (r : string + unit),
    VariantB.moveRemaining B listID listTitle previousTask rest st = (st', r) ->
    match r with
    | inr _ =>
        trace st' = (trace st ++ laterMoves listID previousTask rest)%list
    | inl e =>
        occursIn listTitle e
        /\ exists tw, In tw rest /\ occursIn (Title (VariantB.task tw)) e
    end.
Proof.
  induction rest as [|cur rest IH]; intros previousTask st st' r H;
    cbn [VariantB.moveRemaining] in H.
  - injection H as <- <-. simpl. now rewrite app_nil_r.
  - unfold bind at 1 in H. unfold wrapErr in H. rewrite MoveTask_run in H.
    destruct (snd (Tasks_Move B listID (Id (VariantB.task cur))
                     (previousOf (Id previousTask)) (world st)))
      as [e0|x] eqn:E.
    + apply pair_equal_spec in H. destruct H as [_ <-]. split.
      * do 5 apply occursIn_prefix. apply occursIn_head.
      * exists cur. split; [now left|].
        apply occursIn_prefix. apply occursIn_head.
    + unfold bind at 1 in H. rewrite remote_run in H. cbn [snd fst] in H.
      apply IH in H. simpl trace in H. destruct r as [e|u].
      * destruct H as (Hl & tw & Htw & Ht). split; [exact Hl|].
        exists tw. split; [now right | exact Ht].
      * rewrite H. simpl. now rewrite <- !app_assoc.
Qed.

(** X20.  In the earlier variant, the error of a failed move carries the
    title of the list and the title of one of the tasks being moved. *)
Theorem X20_earlier_variant_names_list_and_task (W : Type) (B : Backend W)
    (listID listTitle : string) (tws : list VariantB.taskWithPriority)
    (st st' : State W) (e : string) :
  VariantB.moveList B listID listTitle tws st = (st', inl e) ->
  occursIn listTitle e
  /\ exists tw, In tw tws /\ occursIn (Title (VariantB.task tw)) e.
Proof.
  destruct tws as [|first rest]; cbn [VariantB.moveList];
    [discriminate|]. intro H.
  unfold bind, wrapErr in H. rewrite MoveTask_run in H.
  destruct (snd (Tasks_Move B listID (Id (VariantB.task first))
                   (previousOf "") (world st))) as [e0|x] eqn:E.
  - apply pair_equal_spec in H. destruct H as [_ He].
    apply (f_equal (fun r => match r with inl x => x | inr _ => "" end))
      in He. cbv beta iota in He. rewrite <- He. split.
    + do 3 apply occursIn_prefix. apply occursIn_head.
    + exists first. split; [now left|].
      apply occursIn_prefix. apply occursIn_head.
  - apply moveRemaining_run in H. destruct H as (Hl & tw & Htw & Ht).
    split; [exact Hl|]. exists tw. split; [now right | exact Ht].
Qed.

Lemma X20_earlier_variant_names_list_and_task_witness :
  occursIn "Backlog"
    "failed to move task Ghost after [URGENT] Fix login in list Backlog: unable to move task: Task not found"
  /\ exists tw,
       In tw [Scenes.byScore Demo.taskC 95; Scenes.byScore Scenes.ghost 50;
              Scenes.byScore Demo.taskA 10]
       /\ occursIn (Title (VariantB.task tw))
            "failed to move task Ghost after [URGENT] Fix login in list Backlog: unable to move task: Task not found".
Proof.
  apply (@X20_earlier_variant_names_list_and_task _ Store.backend "L1"
           "Backlog"
           [Scenes.byScore Demo.taskC 95; Scenes.byScore Scenes.ghost 50;
            Scenes.byScore Demo.taskA 10]
           (Store.start (Demo.store []))
           (fst (VariantB.moveList Store.backend "L1" "Backlog"
                   [Scenes.byScore Demo.taskC 95;
                    Scenes.byScore Scenes.ghost 50;
                    Scenes.byScore Demo.taskA 10]
                   (Store.start (Demo.store []))))).
  vm_compute. reflexivity.
Defined.

(** X21.  When no move fails, the earlier variant moves the first task to
    the front and then each task after the one before it, in the order
    given, pausing 100 ms after every move but the first: one move per
    task and one pause fewer. *)
Theorem X21_earlier_variant_moves (W : Type) (B : Backend W)
    (listID listTitle : string) (first : VariantB.taskWithPriority)
    (rest : list VariantB.taskWithPriority) (st st' : State W) :
  VariantB.moveList B listID listTitle (first :: rest) st = (st', inr tt) ->
  trace st'
  = (trace st
     ++ EvTasksMove listID (Id (VariantB.task first)) None
        :: laterMoves listID (VariantB.task first) rest)%list
  /\ List.length (filter isMove (laterMoves listID (VariantB.task first) rest))
     = List.length rest
  /\ List.length (laterMoves listID (VariantB.task first) rest)
     = 2 * List.length rest.
Proof.
  cbn [VariantB.moveList]. intro H.
  unfold bind, wrapErr in H. rewrite MoveTask_run in H.
  destruct (snd (Tasks_Move B listID (Id (VariantB.task first))
                   (previousOf "") (world st))) as [e0|x] eqn:E;
    [discriminate|].
  apply moveRemaining_run in H. simpl trace in H.
  split; [rewrite H; now rewrite <- app_assoc|].
  clear. generalize (VariantB.task first). induction rest as [|c rest IH];
    intro t; simpl; [split; reflexivity|].
  destruct (IH (VariantB.task c)) as [H1 H2]. split; lia.
Qed.

Lemma X21_earlier_variant_moves_witness :
  trace (fst (VariantB.moveList Store.backend "L1" "Backlog"
                (Scenes.byScore Demo.taskC 95
                 :: [Scenes.byScore Demo.taskA 80;
                     Scenes.byScore Demo.taskB 20])
                (Store.start (Demo.store []))))
  = ([] ++ EvTasksMove "L1" "C" None
        :: laterMoves "L1" Demo.taskC
             [Scenes.byScore Demo.taskA 80; Scenes.byScore Demo.taskB 20])%list
  /\ List.length
       (filter isMove
          (laterMoves "L1" Demo.taskC
             [Scenes.byScore Demo.taskA 80; Scenes.byScore Demo.taskB 20]))
     = 2
  /\ List.length
       (laterMoves "L1" Demo.taskC
          [Scenes.byScore Demo.taskA 80; Scenes.byScore Demo.taskB 20])
     = 2 * 2.
Proof.
  apply (@X21_earlier_variant_moves _ Store.backend "L1" "Backlog"
           (Scenes.byScore Demo.taskC 95)
           [Scenes.byScore Demo.taskA 80; Scenes.byScore Demo.taskB 20]
           (Store.start (Demo.store []))).
  vm_compute. reflexivity.
Defined.

(** ** Marking a task *)

Lemma replaceTask_find (taskID : string) (body : Task) (ts : list Task) :
  existsb (Store.hasId taskID) ts = true ->
  Id body = taskID ->
  find (Store.hasId taskID) (StoreUpdate.replaceTask taskID body ts)
  = Some body.
Proof.
  intros Hex Hid. induction ts as [|y ts IH]; simpl in *; [discriminate|].
  destruct (Store.hasId taskID y) eqn:E; simpl.
  - unfold Store.hasId. now rewrite Hid, String.eqb_refl.
  - rewrite E. apply IH. exact Hex.
Qed.

(** The store reads back what an accepted update wrote. *)
Lemma store_reads_back (l id : string) (t t' : Task) (w w' : Store.t) :
  Tasks_Update StoreUpdate.backend l id t w = (w', inr t') ->
  Tasks_Get Store.backend l id w' = (w', inr t).
Proof.
  simpl. unfold StoreUpdate.doUpdate, Store.doGet.
  destruct (Store.tasksOf (Store.lists w) l) as [ts|] eqn:El;
    [|discriminate].
  destruct (String.eqb_spec (Id t) id) as [Eid|Eid]; simpl; [|discriminate].
  destruct (existsb (Store.hasId id) ts) eqn:Ex; [|discriminate].
  intro H. injection H as <- <-. simpl.
  rewrite (tasksOf_setTasks _ _ _ El).
  now rewrite replaceTask_find.
Qed.

(** X22.  On a store that reads back what an accepted update wrote, a
    successful MarkTaskComplete leaves the task readable with the status
    "completed" and every other field as it was fetched. *)
Theorem X22_complete_sets_only_the_status (W : Type) (B : Backend W)
    (U : UpdateBackend W) (l id : string) (w w' : W) (t' : Task) :
  (forall l id t w w' t',
      Tasks_Update U l id t w = (w', inr t') ->
      Tasks_Get B l id w' = (w', inr t)) ->
  MarkTaskComplete B U l id w = (w', inr t') ->
  exists w1 t0,
    Tasks_Get B l id w = (w1, inr t0)
    /\ Tasks_Get B l id w' = (w', inr (withStatus t0 "completed")).
Proof.
  intros Law H. unfold MarkTaskComplete in H.
  destruct (Tasks_Get B l id w) as [w1 [e|t0]] eqn:Eg; [discriminate|].
  unfold UpdateTask in H.
  destruct (Tasks_Update U l id (withStatus t0 "completed") w1)
    as [w2 [e|t2]] eqn:Eu; [discriminate|].
  injection H as <- <-.
  exists w1, t0. split; [reflexivity | exact (Law _ _ _ _ _ _ Eu)].
Qed.

Lemma X22_complete_sets_only_the_status_witness :
  exists w1 t0,
    Tasks_Get Store.backend "L1" "B" (Demo.store []) = (w1, inr t0)
    /\ Tasks_Get Store.backend "L1" "B"
         (fst (MarkTaskComplete Store.backend StoreUpdate.backend "L1" "B"
                 (Demo.store [])))
       = (fst (MarkTaskComplete Store.backend StoreUpdate.backend "L1" "B"
                 (Demo.store [])),
          inr (withStatus t0 "completed")).
Proof.
  apply (@X22_complete_sets_only_the_status _ Store.backend
           StoreUpdate.backend "L1" "B" (Demo.store [])
           (fst (MarkTaskComplete Store.backend StoreUpdate.backend "L1" "B"
                   (Demo.store [])))
           (withStatus Demo.taskB "completed")).
  - intros l id t w w' t'. apply store_reads_back.
  - vm_compute. reflexivity.
Defined.

(** X23.  On such a store, marking a task complete and then incomplete,
    both with success, leaves it readable with the status "needsAction"
    and every other field as first fetched: a task that needed action
    reads back exactly as it was. *)
Theorem X23_complete_then_incomplete (W : Type) (B : Backend W)
    (U : UpdateBackend W) (l id : string) (w w1 w' w'' : W)
    (t0 t' t'' : Task) :
  (forall l id t w w' t',
      Tasks_Update U l id t w = (w', inr t') ->
      Tasks_Get B l id w' = (w', inr t)) ->
  Tasks_Get B l id w = (w1, inr t0) ->
  MarkTaskComplete B U l id w = (w', inr t') ->
  MarkTaskIncomplete B U l id w' = (w'', inr t'') ->
  Tasks_Get B l id w'' = (w'', inr (withStatus t0 "needsAction"))
  /\ (Status t0 = "needsAction" -> withStatus t0 "needsAction" = t0).
Proof.
  intros Law Hget Hc Hi. unfold MarkTaskComplete in Hc. rewrite Hget in Hc.
  unfold UpdateTask in Hc.
  destruct (Tasks_Update U l id (withStatus t0 "completed") w1)
    as [w2 [e|t2]] eqn:Eu; [discriminate|].
  injection Hc as <- <-. apply Law in Eu.
  unfold MarkTaskIncomplete in Hi. rewrite Eu in Hi. unfold UpdateTask in Hi.
  destruct (Tasks_Update U l id
              (withStatus (withStatus t0 "completed") "needsAction") w2)
    as [w3 [e|t3]] eqn:Eu2; [discriminate|].
  injection Hi as <- <-. apply Law in Eu2.
  split; [exact Eu2|]. intros <-. now destruct t0.
Qed.

Lemma X23_complete_then_incomplete_witness :
  Tasks_Get Store.backend "L1" "B" (Demo.store [])
  = (Demo.store [], inr Demo.taskB)
  /\ (Status Demo.taskB = "needsAction" ->
      withStatus Demo.taskB "needsAction" = Demo.taskB).
Proof.
  apply (@X23_complete_then_incomplete _ Store.backend StoreUpdate.backend
           "L1" "B" (Demo.store []) (Demo.store [])
           (fst (MarkTaskComplete Store.backend StoreUpdate.backend "L1" "B"
                   (Demo.store [])))
           (Demo.store [])
           Demo.taskB (withStatus Demo.taskB "completed") Demo.taskB).
  - intros l id t w w' t'. apply store_reads_back.
  - reflexivity.
  - vm_compute. reflexivity.
  - vm_compute. reflexivity.
Defined.

(** ** A list reordered, end to end *)

Lemma wrapErr_keeps (W A : Type) (f : string -> string) (m : M W A) s s' a :
  m s = (s', inr a) -> wrapErr f m s = (s', inr a).
Proof. apply wrapErr_ok. Qed.

(** X24.  On the store, for a list that is found by its title and has
    top-level tasks, when the service's answer decodes to one record per
    top-level task and the records name tasks of the list, each once:
    the list is reordered with success, and afterwards the ranked tasks
    head the list in an order sorted by position string, the list's other
    tasks following. *)
Theorem X24_list_reordered_by_position (G : GoRuntime) (w : Store.t)
    (listTitle text : string) (taskList : TaskList) (ts : list Task)
    (parts : list string) (cands : list (list string))
    (more : list (string + list (list string))) (ds : list TaskPriority) :
  GoRuntimeLaws G ->
  find (fun l => TaskList_Title l =? listTitle) (map fst (Store.lists w))
  = Some taskList ->
  Store.tasksOf (Store.lists w) (TaskList_Id taskList) = Some ts ->
  filter isTopLevel ts <> [] ->
  Store.replies w = inr ((text :: parts) :: cands) :: more ->
  Unmarshal_TaskPriority G (cleanResponse G text) = inr ds ->
  List.length ds = List.length (filter isTopLevel ts) ->
  NoDup (map TaskID ds) ->
  ~ In "" (map TaskID ds) ->
  incl (map TaskID ds) (map Id ts) ->
  exists s' ranked,
    reorderList Store.backend G listTitle (Store.start w) = (s', inr true)
    /\ ranked = sort_Slice G lessByPosition (repairFrom 0 ds)
    /\ sorted_by lessByPosition ranked
    /\ Permutation (map TaskID ds) (map TaskID ranked)
    /\ Store.order (world s') (TaskList_Id taskList)
       = (map TaskID ranked ++ outside (map TaskID ranked) (map Id ts))%list.
Proof.
  intros Laws Hfind Hts Htop Hrep Hdec Hlen Hnd Hne Hin.
  set (l := TaskList_Id taskList) in *.
  set (tops := filter isTopLevel ts) in *.
  set (ranked := sort_Slice G lessByPosition (repairFrom 0 ds)).
  assert (Hperm : Permutation (map TaskID ds) (map TaskID ranked)).
  { rewrite <- (repairFrom_TaskID 0 ds).
    apply Permutation_map, (sort_Slice_perm Laws). }
  (* the look-up of the list and the fetch of its tasks *)
  set (s1 := {| world := w; trace := [EvTasklistsList] |}).
  set (s2 := {| world := w; trace := [EvTasklistsList; EvTasksList l] |}).
  assert (H1 : GetTaskListByTitle Store.backend listTitle (Store.start w)
               = (s1, inr taskList)).
  { unfold GetTaskListByTitle, ListTaskLists, bind, wrapErr, remote.
    simpl. now rewrite Hfind. }
  assert (H2 : ListTasks Store.backend l s1 = (s2, inr ts)).
  { unfold ListTasks, wrapErr, remote. simpl. unfold Store.doListTasks.
    now rewrite Hts. }
  (* the request and the validation *)
  set (w3 := {| Store.lists := Store.lists w; Store.replies := more;
                Store.fresh := Store.fresh w |}).
  set (s3 := {| world := w3;
                trace := [EvTasklistsList; EvTasksList l;
                          EvGenerate (RankingPrompt tops)] |}).
  assert (Hgen : Store.doGenerate (RankingPrompt tops) w
                 = (w3, inr ((text :: parts) :: cands))).
  { unfold Store.doGenerate. now rewrite Hrep. }
  assert (H3 : AnalyzeAndPrioritizeTasks Store.backend G tops s2
               = (s3, inr (repairFrom 0 ds))).
  { rewrite (Analyze_run Store.backend G tops s2 (text := text)
               (parts := parts) (cands := cands) (ds := ds)).
    - simpl. rewrite Hgen. unfold validatePriorities.
      now rewrite Hlen, Nat.eqb_refl.
    - simpl. now rewrite Hgen.
    - exact Hdec. }
  (* the replay *)
  destruct (@replay_store l (map Id ts) ranked [] s3)
    as (s4 & Hrun & _ & Hord).
  { simpl. unfold Store.order. simpl. now rewrite Hts, outside_nil. }
  { exists ts. exact Hts. }
  { simpl. now apply (Permutation_NoDup Hperm). }
  { simpl. intro X. apply Hne.
    now apply (Permutation_in _ (Permutation_sym Hperm)). }
  { intros i Hi. apply Hin.
    now apply (Permutation_in _ (Permutation_sym Hperm)). }
  simpl in Hrun, Hord.
  eexists. exists ranked.
  split.
  - unfold reorderList.
    rewrite (bind_step _ _ _ (wrapErr_keeps _ _ _ H1)).
    rewrite (bind_step _ _ _ (wrapErr_keeps _ _ _ H2)).
    fold tops.
    destruct (List.length tops =? 0)%nat eqn:E.
    { apply Nat.eqb_eq in E. destruct tops; [contradiction | discriminate]. }
    rewrite (bind_step _ _ _ (wrapErr_keeps _ _ _ H3)).
    fold ranked. fold l.
    rewrite (bind_step _ _ _ Hrun).
    unfold bind, Printf, ret. reflexivity.
  - split; [reflexivity|].
    split; [apply (sort_Slice_sorted Laws), StringOrder.lessByPosition_swo|].
    split; [exact Hperm|]. simpl. exact Hord.
Qed.

Lemma X24_list_reordered_by_position_witness :
  exists s' ranked,
    reorderList Store.backend Demo.G "Backlog"
      (Store.start (Scenes.withChild ["rank-CAB"])) = (s', inr true)
    /\ ranked = sort_Slice Demo.G lessByPosition (repairFrom 0 Demo.rankCAB)
    /\ sorted_by lessByPosition ranked
    /\ Permutation (map TaskID Demo.rankCAB) (map TaskID ranked)
    /\ Store.order (world s') (TaskList_Id Demo.backlog)
       = (map TaskID ranked
          ++ outside (map TaskID ranked)
               (map Id [Demo.taskA; Demo.child "A1" "Outline" "A";
                        Demo.taskB; Demo.taskC]))%list.
Proof.
  apply (@X24_list_reordered_by_position Demo.G
           (Scenes.withChild ["rank-CAB"]) "Backlog" "rank-CAB"
           Demo.backlog
           [Demo.taskA; Demo.child "A1" "Outline" "A"; Demo.taskB;
            Demo.taskC]
           [] [] [] Demo.rankCAB (tableRuntime_laws _ _)).
  - reflexivity.
  - reflexivity.
  - discriminate.
  - reflexivity.
  - reflexivity.
  - reflexivity.
  - vm_compute. repeat constructor; simpl; intuition discriminate.
  - vm_compute. intuition discriminate.
  - vm_compute. intros i Hi. simpl in Hi. simpl. intuition.
Defined.

End Extras.
